(** * long-running-pubsub: a model of [index.js] and the properties of its
    long-running-job client.

    The file embeds the [Client] class of [index.js]: the payload codec it
    borrows from Node's [Buffer], the REST calls ([pull], [modifyAckDeadline],
    [acknowledge], [publish]), and the two long-running-job entry points
    ([pullLongRunningJob], [acknowledgeLongRunningJob]) together with the
    interval timers they start and clear.  Of the runtime it models what
    the client relies on: the rounding of the division of numbers, the
    members a plain object inherits, the timers, and the fate of a rejected
    promise that nobody handles. *)

From Stdlib Require Import NArith ZArith QArith List Lia Bool Floats.
From stdpp Require Import gmap strings list fin_maps.

(** ** Node's [Buffer]: the conversions the client calls

    A JavaScript string is a sequence of UTF-16 code units and a [Buffer]
    is a sequence of octets; both are lists of [N] here.  The functions are
    named after the [Buffer] primitives that implement them. *)

Module Buffer.
Local Open Scope N_scope.

Definition jsstring : Type := list N.
Definition bytes : Type := list N.

Definition is_octet (b : N) : Prop := b < 256.
Definition is_ascii (c : N) : Prop := c < 128.

(** A Rocq string literal read as a JavaScript string, for examples. *)
Definition js (s : string) : jsstring :=
  map Ascii.N_of_ascii (String.list_ascii_of_string s).

(** *** [Buffer.from(string)]: UTF-8 *)

Definition is_lead_surrogate (c : N) : bool := (0xD800 <=? c) && (c <=? 0xDBFF).
Definition is_trail_surrogate (c : N) : bool := (0xDC00 <=? c) && (c <=? 0xDFFF).

Definition replacement_character : bytes := [0xEF; 0xBF; 0xBD].

Definition utf8_of_code_point (cp : N) : bytes :=
  if cp <? 0x80 then [cp]
  else if cp <? 0x800 then
    [N.lor 0xC0 (N.shiftr cp 6); N.lor 0x80 (N.land cp 0x3F)]
  else if cp <? 0x10000 then
    [N.lor 0xE0 (N.shiftr cp 12);
     N.lor 0x80 (N.land (N.shiftr cp 6) 0x3F);
     N.lor 0x80 (N.land cp 0x3F)]
  else
    [N.lor 0xF0 (N.shiftr cp 18);
     N.lor 0x80 (N.land (N.shiftr cp 12) 0x3F);
     N.lor 0x80 (N.land (N.shiftr cp 6) 0x3F);
     N.lor 0x80 (N.land cp 0x3F)].

Definition code_point_of_pair (hi lo : N) : N :=
  0x10000 + N.shiftl (hi - 0xD800) 10 + (lo - 0xDC00).

(** Surrogate pairs become one four-octet sequence; a surrogate without
    its partner becomes U+FFFD. *)
Fixpoint utf8Write (s : jsstring) : bytes :=
  match s with
  | [] => []
  | c :: s' =>
      if is_lead_surrogate c then
        match s' with
        | d :: s'' =>
            if is_trail_surrogate d
            then utf8_of_code_point (code_point_of_pair c d) ++ utf8Write s''
            else replacement_character ++ utf8Write s'
        | [] => replacement_character
        end
      else if is_trail_surrogate c then replacement_character ++ utf8Write s'
      else utf8_of_code_point c ++ utf8Write s'
  end.

(** *** [buf.toString('base64')] *)

Definition pad : N := 61.  (* '=' *)

Definition base64_char (v : N) : N :=
  if v <? 26 then 65 + v                (* 'A'..'Z' *)
  else if v <? 52 then 97 + (v - 26)    (* 'a'..'z' *)
  else if v <? 62 then 48 + (v - 52)    (* '0'..'9' *)
  else if v =? 62 then 43               (* '+' *)
  else 47.                              (* '/' *)

Fixpoint base64Slice (b : bytes) : jsstring :=
  match b with
  | [] => []
  | [x] =>
      [base64_char (N.shiftr x 2);
       base64_char (N.shiftl (N.land x 0x03) 4);
       pad; pad]
  | [x; y] =>
      [base64_char (N.shiftr x 2);
       base64_char (N.lor (N.shiftl (N.land x 0x03) 4) (N.shiftr y 4));
       base64_char (N.shiftl (N.land y 0x0F) 2);
       pad]
  | x :: y :: z :: rest =>
      [base64_char (N.shiftr x 2);
       base64_char (N.lor (N.shiftl (N.land x 0x03) 4) (N.shiftr y 4));
       base64_char (N.lor (N.shiftl (N.land y 0x0F) 2) (N.shiftr z 6));
       base64_char (N.land z 0x3F)]
      ++ base64Slice rest
  end.

(** *** [Buffer.from(string, 'base64')]

    Node's decoder is lenient: it accepts the URL-safe letters too, skips
    every other character and stops at the first padding sign.  A trailing
    group of two or three letters yields one or two octets.  The decoder
    reads a code unit as one octet, so only its low eight bits count. *)

Definition unbase64 (c : N) : option N :=
  if (65 <=? c) && (c <=? 90) then Some (c - 65)
  else if (97 <=? c) && (c <=? 122) then Some (c - 97 + 26)
  else if (48 <=? c) && (c <=? 57) then Some (c - 48 + 52)
  else if (c =? 43) || (c =? 45) then Some 62     (* '+' and '-' *)
  else if (c =? 47) || (c =? 95) then Some 63     (* '/' and '_' *)
  else None.

Fixpoint sextets (s : jsstring) : list N :=
  match s with
  | [] => []
  | c :: s' =>
      let c := N.land c 0xFF in
      match unbase64 c with
      | Some v => v :: sextets s'
      | None => if c =? pad then [] else sextets s'
      end
  end.

Fixpoint base64_groups (v : list N) : bytes :=
  match v with
  | a :: b :: c :: d :: rest =>
      [N.lor (N.shiftl (N.land a 0x3F) 2) (N.shiftr (N.land b 0x30) 4);
       N.lor (N.shiftl (N.land b 0x0F) 4) (N.shiftr (N.land c 0x3C) 2);
       N.lor (N.shiftl (N.land c 0x03) 6) (N.land d 0x3F)]
      ++ base64_groups rest
  | [a; b; c] =>
      [N.lor (N.shiftl (N.land a 0x3F) 2) (N.shiftr (N.land b 0x30) 4);
       N.lor (N.shiftl (N.land b 0x0F) 4) (N.shiftr (N.land c 0x3C) 2)]
  | [a; b] =>
      [N.lor (N.shiftl (N.land a 0x3F) 2) (N.shiftr (N.land b 0x30) 4)]
  | _ => []
  end.

Definition base64Write (s : jsstring) : bytes := base64_groups (sextets s).

(** *** [buf.toString('ascii')]: the high bit of every octet is cleared *)

Definition asciiSlice (b : bytes) : jsstring := map (fun x => N.land x 0x7F) b.

(** *** The values a message's [data] field can hold *)

Inductive value : Type :=
| Undefined
| Str (s : jsstring)
| Buf (b : bytes).

(** [Buffer.from(v)] and [Buffer.from(v, 'base64')]; [None] is the
    [TypeError] that [Buffer.from] raises on a value that is neither a
    string nor a buffer.  A buffer argument is copied whatever the
    encoding. *)
Definition from (v : value) : option bytes :=
  match v with
  | Undefined => None
  | Str s => Some (utf8Write s)
  | Buf b => Some b
  end.

Definition from_base64 (v : value) : option bytes :=
  match v with
  | Undefined => None
  | Str s => Some (base64Write s)
  | Buf b => Some b
  end.
End Buffer.

(** ** JavaScript numbers: the rounding of [/]

    A JavaScript number is an IEEE 754 binary64 value, and [a / b] is the
    exact quotient rounded to the nearest such value, ties to the even
    significand.  [binary64] is that rounding on the rationals: a positive
    [a / b] is scaled by the power of two that brings it into
    [2^52, 2^53), rounded to an integer there and scaled back.  It covers
    the normal range, which holds every quotient of a whole number by 1000. *)

Module Number.
Local Open Scope Z_scope.

Definition round_half_even (n d : Z) : Z :=
  let q := n / d in
  let r := n mod d in
  if 2 * r <? d then q
  else if d <? 2 * r then q + 1
  else if Z.even q then q else q + 1.

Definition binary64_pos (a b : positive) : Q :=
  let s := Z.log2 (Zpos b) + 1 in
  let l := Z.log2 (Zpos a * 2 ^ s / Zpos b) in
  let e := l - s - 52 in
  if e <? 0
  then round_half_even (Zpos a * 2 ^ (- e)) (Zpos b) # Z.to_pos (2 ^ (- e))
  else inject_Z (round_half_even (Zpos a) (Zpos b * 2 ^ e) * 2 ^ e).

Definition binary64 (x : Q) : Q :=
  match Qnum x with
  | Z0 => 0%Q
  | Zpos a => binary64_pos a (Qden x)
  | Zneg a => Qopp (binary64_pos a (Qden x))
  end.

(** The value of a float of the kernel, which is a binary64 value too, and
    the float that holds a whole number. *)
Definition of_float (f : float) : option Q :=
  match Prim2SF f with
  | S754_zero _ => Some 0%Q
  | S754_finite s m e =>
      let v := if 0 <=? e then inject_Z (Zpos m * 2 ^ e)
               else (Zpos m # Z.to_pos (2 ^ (- e))) in
      Some (if s then Qopp v else v)
  | _ => None
  end.

Definition to_float (d : Z) : float := SF2Prim (binary_normalize 53 1024 d 0 false).

(** [d / 1000] as the kernel's own binary64 division computes it. *)
Definition float_div_1000 (d : Z) : option Q :=
  of_float (PrimFloat.div (to_float d) (to_float 1000)).

Definition agrees_with_float (d : Z) : bool :=
  match float_div_1000 d with
  | Some q => Qeq_bool q (binary64 (inject_Z d / 1000))
  | None => false
  end.
End Number.

(** ** Data exchanged with the Pub/Sub REST API *)

Record pubsub_message : Type := {
  data : Buffer.value;
  attributes : list (string * string);
  messageId : string
}.

Record received_message : Type := {
  ackId : string;
  message : pubsub_message
}.

Record pull_response : Type := {
  receivedMessages : option (list received_message)
}.

(** The JSON body of each request.  [ackDeadlineSeconds] is a JavaScript
    number: the rational that the binary64 value stands for. *)
Inductive body : Type :=
| PullBody (returnImmediately : bool) (maxMessages : Z)
| ModifyAckDeadlineBody (ackIds : list string) (ackDeadlineSeconds : Q)
| AcknowledgeBody (ackIds : list string)
| PublishBody (messages : list pubsub_message).

(** Every request is a JSON [POST]; only the address and the body vary. *)
Record http_request : Type := { uri : string; body_of : body }.

Inductive error : Type :=
| AuthError (msg : string)      (* [addAuthentication] rejected *)
| RequestError (msg : string)   (* [request(req)] rejected *)
| TypeError.                    (* raised by the runtime *)

(** How a promise settles. *)
Inductive outcome (A : Type) : Type :=
| Resolved (a : A)
| Rejected (e : error).
Arguments Resolved {A} a.
Arguments Rejected {A} e.

(** What the outside world answers to one REST call: the credentials
    lookup fails (no request goes out), the request fails, or the service
    replies. *)
Inductive reply (A : Type) : Type :=
| NoCredentials (msg : string)
| Failed (msg : string)
| Replied (a : A).
Arguments NoCredentials {A} msg.
Arguments Failed {A} msg.
Arguments Replied {A} a.

(** ** Timers, the log sink and the trace *)

(** Timer objects and heap references are told apart by a number. *)
Abbreviation timer := positive (only parsing).

(** What the callback given to [setInterval] closes over, and its period. *)
Record callback : Type := {
  cb_subscription : string;
  cb_ackId : string;
  cb_extendBy : Z;
  cb_period : Z
}.

(** One call of [this.log]; the fields are the values interpolated into
    the message. *)
Inductive log_entry : Type :=
| LogPull (subscription : string) (req : http_request)
| LogModifyAckDeadline (subscription : string) (ackIds : list string) (ackDeadline : Z)
| LogAcknowledge (subscription : string) (ackIds : list string)
| LogReceived (subscription : string) (results : option pull_response)
| LogStarting (subscription : string) (ackId : string)
| LogLoop (subscription : string) (ackId : string)
| LogStopping (subscription : string) (ackId : string).

(** [ClearNonTimer name] is a call of [clearInterval] on a value that is no
    timer object, the member [name] of [Object.prototype]. *)
Inductive event : Type :=
| Log (l : log_entry)
| Authenticate
| Send (req : http_request)
| SetInterval (t : timer) (cb : callback)
| ClearInterval (t : timer)
| ClearNonTimer (name : string).

(** What the runtime does with a rejected promise that has no handler:
    Node since version 15 raises it as an uncaught exception, which ends
    the process; before that, and wherever the host installs a handler for
    [unhandledRejection], the process goes on. *)
Inductive rejection_policy : Type :=
| TerminateProcess
| KeepRunning.

Abbreviation loc := positive (only parsing).

(** The client object and the part of the runtime it touches:
    [longRunningJobTimers] is the client's own table; [intervals] are the
    timers the runtime keeps alive; [heap] holds the message objects the
    caller shares with [publish]; [trace] lists the effects, oldest first;
    [unhandledRejections] collects the rejected promises nobody awaits;
    [unhandledRejectionPolicy] is what the runtime does about them and
    [exited] tells that it has ended the process.

    [longRunningJobTimers] holds the properties the table object owns.
    The table is a plain object ([{}]), so reading a key it does not own
    goes on to [Object.prototype]: see [get] below.  Storing under the key
    [__proto__] would replace that prototype instead of adding a property;
    the service does not hand out such a handle, and the model stores it
    like any other key. *)
Record state : Type := {
  project : string;
  longRunningJobTimers : gmap string timer;
  intervals : gmap timer callback;
  next_timer : timer;
  heap : gmap loc pubsub_message;
  trace : list event;
  unhandledRejections : list error;
  unhandledRejectionPolicy : rejection_policy;
  exited : bool
}.

(** [new Client({ project })], in a process with the default policy of
    current Node. *)
Definition constructor (project : string) (heap : gmap loc pubsub_message) : state :=
  {| project := project;
     longRunningJobTimers := ∅;
     intervals := ∅;
     next_timer := 1%positive;
     heap := heap;
     trace := [];
     unhandledRejections := [];
     unhandledRejectionPolicy := TerminateProcess;
     exited := false |}.

(** ** Asynchronous functions: state passing with rejection *)

Definition M (A : Type) : Type := state -> outcome A * state.

Definition ret {A} (a : A) : M A := fun st => (Resolved a, st).
Definition throw {A} (e : error) : M A := fun st => (Rejected e, st).
Definition bind {A B} (m : M A) (k : A -> M B) : M B :=
  fun st =>
    match m st with
    | (Resolved a, st') => k a st'
    | (Rejected e, st') => (Rejected e, st')
    end.

Notation "x <- c1 ;; c2" := (bind c1 (fun x => c2))
  (at level 100, c1 at next level, right associativity).
Notation "c1 ;; c2" := (bind c1 (fun _ => c2))
  (at level 100, right associativity).

Definition gets {A} (f : state -> A) : M A := fun st => (Resolved (f st), st).
Definition modify (f : state -> state) : M unit := fun st => (Resolved tt, f st).

Definition set_longRunningJobTimers (f : gmap string timer -> gmap string timer)
    (st : state) : state :=
  {| project := project st;
     longRunningJobTimers := f (longRunningJobTimers st);
     intervals := intervals st;
     next_timer := next_timer st;
     heap := heap st;
     trace := trace st;
     unhandledRejections := unhandledRejections st;
     unhandledRejectionPolicy := unhandledRejectionPolicy st;
     exited := exited st |}.

Definition set_intervals (f : gmap timer callback -> gmap timer callback)
    (st : state) : state :=
  {| project := project st;
     longRunningJobTimers := longRunningJobTimers st;
     intervals := f (intervals st);
     next_timer := next_timer st;
     heap := heap st;
     trace := trace st;
     unhandledRejections := unhandledRejections st;
     unhandledRejectionPolicy := unhandledRejectionPolicy st;
     exited := exited st |}.

Definition set_next_timer (t : timer) (st : state) : state :=
  {| project := project st;
     longRunningJobTimers := longRunningJobTimers st;
     intervals := intervals st;
     next_timer := t;
     heap := heap st;
     trace := trace st;
     unhandledRejections := unhandledRejections st;
     unhandledRejectionPolicy := unhandledRejectionPolicy st;
     exited := exited st |}.

Definition set_heap (f : gmap loc pubsub_message -> gmap loc pubsub_message)
    (st : state) : state :=
  {| project := project st;
     longRunningJobTimers := longRunningJobTimers st;
     intervals := intervals st;
     next_timer := next_timer st;
     heap := f (heap st);
     trace := trace st;
     unhandledRejections := unhandledRejections st;
     unhandledRejectionPolicy := unhandledRejectionPolicy st;
     exited := exited st |}.

Definition set_trace (f : list event -> list event) (st : state) : state :=
  {| project := project st;
     longRunningJobTimers := longRunningJobTimers st;
     intervals := intervals st;
     next_timer := next_timer st;
     heap := heap st;
     trace := f (trace st);
     unhandledRejections := unhandledRejections st;
     unhandledRejectionPolicy := unhandledRejectionPolicy st;
     exited := exited st |}.

Definition set_unhandledRejections (f : list error -> list error)
    (st : state) : state :=
  {| project := project st;
     longRunningJobTimers := longRunningJobTimers st;
     intervals := intervals st;
     next_timer := next_timer st;
     heap := heap st;
     trace := trace st;
     unhandledRejections := f (unhandledRejections st);
     unhandledRejectionPolicy := unhandledRejectionPolicy st;
     exited := exited st |}.

Definition set_unhandledRejectionPolicy (p : rejection_policy) (st : state) : state :=
  {| project := project st;
     longRunningJobTimers := longRunningJobTimers st;
     intervals := intervals st;
     next_timer := next_timer st;
     heap := heap st;
     trace := trace st;
     unhandledRejections := unhandledRejections st;
     unhandledRejectionPolicy := p;
     exited := exited st |}.

(** The process ends: no timer is alive any more. *)
Definition exit (st : state) : state :=
  {| project := project st;
     longRunningJobTimers := longRunningJobTimers st;
     intervals := ∅;
     next_timer := next_timer st;
     heap := heap st;
     trace := trace st;
     unhandledRejections := unhandledRejections st;
     unhandledRejectionPolicy := unhandledRejectionPolicy st;
     exited := true |}.

(** A promise is rejected and nobody handles it. *)
Definition unhandledRejection (e : error) (st : state) : state :=
  let st := set_unhandledRejections (fun l => l ++ [e]) st in
  match unhandledRejectionPolicy st with
  | TerminateProcess => exit st
  | KeepRunning => st
  end.

Definition emit (e : event) : M unit := modify (set_trace (fun tr => tr ++ [e])).

(** [this.log(...)]: the sink is the caller's; the call is recorded. *)
Definition log (l : log_entry) : M unit := emit (Log l).

(** The members of [Object.prototype], which every plain object inherits.
    Each is a function or, for [__proto__], the prototype itself: a truthy
    value that is no timer. *)
Definition Object_prototype : list string :=
  ["constructor"; "__defineGetter__"; "__defineSetter__"; "hasOwnProperty";
   "__lookupGetter__"; "__lookupSetter__"; "isPrototypeOf";
   "propertyIsEnumerable"; "toString"; "valueOf"; "__proto__";
   "toLocaleString"].

Definition inherited (key : string) : bool :=
  existsb (String.eqb key) Object_prototype.

(** What [table[key]] evaluates to when it is not [undefined]. *)
Inductive property : Type :=
| OwnTimer (t : timer)
| Inherited (name : string).

(** [table[key]]: the table's own entry, else the inherited member. *)
Definition get (table : gmap string timer) (key : string) : option property :=
  match table !! key with
  | Some t => Some (OwnTimer t)
  | None => if inherited key then Some (Inherited key) else None
  end.

(** [setInterval(cb, period)] returns a timer object never seen before;
    [clearInterval(v)] stops the timer [v] and ignores any other value. *)
Definition setInterval (cb : callback) : M timer :=
  t <- gets next_timer;;
  modify (set_next_timer (Pos.succ t));;
  modify (set_intervals (fun iv => <[t := cb]> iv));;
  emit (SetInterval t cb);;
  ret t.

Definition clearInterval (v : property) : M unit :=
  match v with
  | OwnTimer t =>
      modify (set_intervals (fun iv => delete t iv));;
      emit (ClearInterval t)
  | Inherited name => emit (ClearNonTimer name)
  end.

(** ** The methods of [Client] *)

Definition BASE_URL : string := "https://pubsub.googleapis.com/v1".

(** [addAuthentication(headers)] rejects when the default credentials cannot
    be obtained. *)
Definition addAuthentication {A} (r : reply A) : M unit :=
  emit Authenticate;;
  match r with
  | NoCredentials msg => throw (AuthError msg)
  | _ => ret tt
  end.

(** [request(req)] of request-promise-native. *)
Definition request {A} (req : http_request) (r : reply A) : M A :=
  emit (Send req);;
  match r with
  | Replied a => ret a
  | Failed msg => throw (RequestError msg)
  | NoCredentials msg => throw (AuthError msg)
  end.

Definition formatSubscription (subscription : string) : M string :=
  p <- gets project;;
  ret ("projects/" +:+ p +:+ "/subscriptions/" +:+ subscription).

Record pull_options : Type := {
  returnImmediately : option bool;
  maxMessages : option Z
}.

Definition pull (subscription : string) (opts : pull_options)
    (r : reply (option pull_response)) : M (option pull_response) :=
  path <- formatSubscription subscription;;
  let uri := BASE_URL +:+ "/" +:+ path +:+ ":pull" in
  addAuthentication r;;
  let body := PullBody (default true (returnImmediately opts))
                       (default 1%Z (maxMessages opts)) in
  let req := {| uri := uri; body_of := body |} in
  log (LogPull subscription req);;
  request req r.

(** [ackDeadline] is a number that holds a whole count of milliseconds. *)
Definition modifyAckDeadline (subscription : string) (ackIds : list string)
    (ackDeadline : Z) (r : reply unit) : M unit :=
  log (LogModifyAckDeadline subscription ackIds ackDeadline);;
  path <- formatSubscription subscription;;
  let uri := BASE_URL +:+ "/" +:+ path +:+ ":modifyAckDeadline" in
  addAuthentication r;;
  let body := ModifyAckDeadlineBody ackIds
                (Number.binary64 (inject_Z ackDeadline / 1000)) in
  let req := {| uri := uri; body_of := body |} in
  request req r.

Definition acknowledge (subscription : string) (ackIds : list string)
    (r : reply unit) : M unit :=
  log (LogAcknowledge subscription ackIds);;
  path <- formatSubscription subscription;;
  let uri := BASE_URL +:+ "/" +:+ path +:+ ":acknowledge" in
  addAuthentication r;;
  let body := AcknowledgeBody ackIds in
  let req := {| uri := uri; body_of := body |} in
  request req r.

Record job_options : Type := {
  extendBy : option Z;
  withPeriod : option Z
}.

(** [payload.message.data = Buffer.from(payload.message.data, 'base64').toString('ascii')] *)
Definition decode_data (v : Buffer.value) : option Buffer.value :=
  match Buffer.from_base64 v with
  | Some b => Some (Buffer.Str (Buffer.asciiSlice b))
  | None => None
  end.

Definition with_data (m : pubsub_message) (v : Buffer.value) : pubsub_message :=
  {| data := v; attributes := attributes m; messageId := messageId m |}.

Definition with_message (p : received_message) (m : pubsub_message) : received_message :=
  {| ackId := ackId p; message := m |}.

(** The promise resolves to [undefined] ([None]) when the response carries no
    message, and to the first received message otherwise. *)
Definition pullLongRunningJob (subscription : string) (opts : job_options)
    (r_pull : reply (option pull_response)) (r_modify : reply unit)
    : M (option received_message) :=
  let extendBy := default 10000%Z (extendBy opts) in
  let withPeriod := default 10000%Z (withPeriod opts) in
  results <- pull subscription
               {| returnImmediately := Some true; maxMessages := Some 1%Z |} r_pull;;
  log (LogReceived subscription results);;
  match results with
  | None => ret None
  | Some results =>
      match receivedMessages results with
      | None => ret None
      | Some [] => ret None
      | Some (payload :: _) =>
          log (LogStarting subscription (ackId payload));;
          t <- setInterval {| cb_subscription := subscription;
                              cb_ackId := ackId payload;
                              cb_extendBy := extendBy;
                              cb_period := withPeriod |};;
          modify (set_longRunningJobTimers (fun reg => <[ackId payload := t]> reg));;
          modifyAckDeadline subscription [ackId payload] extendBy r_modify;;
          match decode_data (data (message payload)) with
          | None => throw TypeError
          | Some d => ret (Some (with_message payload (with_data (message payload) d)))
          end
      end
  end.

Definition acknowledgeLongRunningJob (subscription : string) (ackId : string)
    (r : reply unit) : M unit :=
  reg <- gets longRunningJobTimers;;
  match get reg ackId with
  | Some v =>
      log (LogStopping subscription ackId);;
      clearInterval v;;
      modify (set_longRunningJobTimers (fun reg => delete ackId reg))
  | None => ret tt
  end;;
  acknowledge subscription [ackId] r.

(** The body of the interval callback: it logs, starts [modifyAckDeadline]
    and returns without awaiting it, so a rejection of that promise is
    handled by nobody and falls to the runtime.  The timer fires only while
    it is alive.  The renewal is one step here, from the callback to the
    reply of its request. *)
Definition tick (t : timer) (r : reply unit) (st : state) : option state :=
  match intervals st !! t with
  | None => None
  | Some cb =>
      let '(out, st') :=
        (log (LogLoop (cb_subscription cb) (cb_ackId cb));;
         modifyAckDeadline (cb_subscription cb) [cb_ackId cb] (cb_extendBy cb) r) st in
      match out with
      | Resolved _ => Some st'
      | Rejected e => Some (unhandledRejection e st')
      end
  end.

Definition formatTopic (topic : string) : M string :=
  p <- gets project;;
  ret ("projects/" +:+ p +:+ "/topics/" +:+ topic).

(** [m.data = Buffer.from(m.data).toString('base64')] *)
Definition encode_data (v : Buffer.value) : option Buffer.value :=
  match Buffer.from v with
  | Some b => Some (Buffer.Str (Buffer.base64Slice b))
  | None => None
  end.

(** Reading a property of an object; a reference to nothing raises. *)
Definition deref (m : loc) : M pubsub_message :=
  h <- gets heap;;
  match h !! m with
  | Some o => ret o
  | None => throw TypeError
  end.

(** The function given to [messages.map]: it writes through the reference
    it receives and returns that same reference. *)
Definition encode_message (m : loc) : M loc :=
  o <- deref m;;
  match encode_data (data o) with
  | None => throw TypeError
  | Some d =>
      modify (set_heap (fun h => <[m := with_data o d]> h));;
      ret m
  end.

Fixpoint mapM {A B} (f : A -> M B) (l : list A) : M (list B) :=
  match l with
  | [] => ret []
  | a :: l' => b <- f a;; bs <- mapM f l';; ret (b :: bs)
  end.

Definition publish (topic : string) (messages : list loc)
    (r : reply (list string)) : M (list string) :=
  path <- formatTopic topic;;
  let uri := BASE_URL +:+ "/" +:+ path +:+ ":publish" in
  addAuthentication r;;
  messages <- mapM encode_message messages;;
  sent <- mapM deref messages;;
  let body := PublishBody sent in
  let req := {| uri := uri; body_of := body |} in
  request req r.

(** ** Executions: calls of the caller interleaved with timer ticks *)

Inductive action : Type :=
| PullLongRunningJob (subscription : string) (opts : job_options)
    (r_pull : reply (option pull_response)) (r_modify : reply unit)
| AcknowledgeLongRunningJob (subscription : string) (ackId : string) (r : reply unit)
| Publish (topic : string) (messages : list loc) (r : reply (list string))
| Tick (t : timer) (r : reply unit).

Definition perform (a : action) (st : state) : option state :=
  match a with
  | PullLongRunningJob s o r1 r2 => Some (snd (pullLongRunningJob s o r1 r2 st))
  | AcknowledgeLongRunningJob s a r => Some (snd (acknowledgeLongRunningJob s a r st))
  | Publish t ms r => Some (snd (publish t ms r st))
  | Tick t r => tick t r st
  end.

(** Nothing runs in a process that has ended. *)
Definition step (a : action) (st : state) : option state :=
  if exited st then None else perform a st.

Fixpoint run (acts : list action) (st : state) : option state :=
  match acts with
  | [] => Some st
  | a :: acts' =>
      match step a st with
      | Some st' => run acts' st'
      | None => None
      end
  end.

(** Projections of a trace. *)
Definition logged (tr : list event) : list log_entry :=
  omap (fun e => match e with Log l => Some l | _ => None end) tr.

Definition sent (tr : list event) : list http_request :=
  omap (fun e => match e with Send r => Some r | _ => None end) tr.

Definition effects (tr : list event) : list event :=
  List.filter (fun e => match e with Log _ => false | _ => true end) tr.


(** ** Vocabulary of the properties *)

(** The publish-path encoding followed by the pull-path decoding. *)
Definition roundtrip (v : Buffer.value) : option Buffer.value :=
  match encode_data v with
  | Some e => decode_data e
  | None => None
  end.

(** A reply to [pull] that carries no message. *)
Definition no_messages (results : option pull_response) : bool :=
  match results with
  | None => true
  | Some res =>
      match receivedMessages res with
      | None | Some [] => true
      | Some (_ :: _) => false
      end
  end.

(** The credentials were found, so the request leaves the client. *)
Definition reaches_wire {A} (r : reply A) : bool :=
  match r with
  | NoCredentials _ => false
  | _ => true
  end.

(** How the promise of one REST call settles, given the world's answer. *)
Definition settles {A} (r : reply A) : outcome A :=
  match r with
  | NoCredentials msg => Rejected (AuthError msg)
  | Failed msg => Rejected (RequestError msg)
  | Replied a => Resolved a
  end.

Definition rejection {A} (r : reply A) : list error :=
  match settles r with
  | Rejected e => [e]
  | Resolved _ => []
  end.

(** The [ackDeadlineSeconds] fields that went out, oldest first. *)
Definition ackDeadlineSeconds_sent (tr : list event) : list Q :=
  omap (fun e =>
          match e with
          | Send {| body_of := ModifyAckDeadlineBody _ q |} => Some q
          | _ => None
          end) tr.

Definition whole_seconds (q : Q) : Prop := exists n : Z, (q == inject_Z n)%Q.

(** The handles whose deadline a request extends. *)
Definition extends_deadline_of (req : http_request) : list string :=
  match body_of req with
  | ModifyAckDeadlineBody ackIds _ => ackIds
  | _ => []
  end.

(** A live timer [t] that renews handle [h]. *)
Definition renews (st : state) (t : timer) (h : string) : Prop :=
  exists cb, intervals st !! t = Some cb /\ cb_ackId cb = h.

(** A live timer that no entry of the table refers to: nothing can clear it. *)
Definition leaked (st : state) (t : timer) : Prop :=
  is_Some (intervals st !! t) /\
  forall h, longRunningJobTimers st !! h <> Some t.

(** Timer objects are handed out in increasing order: the live timers and
    the timers of the table were all handed out already. *)
Definition fresh_timers (st : state) : Prop :=
  (forall t cb, intervals st !! t = Some cb -> (t < next_timer st)%positive) /\
  (forall h t, longRunningJobTimers st !! h = Some t -> (t < next_timer st)%positive).

(** A timer that was handed out and is not alive. *)
Definition stopped (st : state) (t : timer) : Prop :=
  intervals st !! t = None /\ (t < next_timer st)%positive.

(** Every live timer is the table's entry for the handle it renews. *)
Definition tracked (st : state) : Prop :=
  forall t cb, intervals st !! t = Some cb ->
    longRunningJobTimers st !! cb_ackId cb = Some t.

(** The number of table entries under key [h]. *)
Definition entries_for (h : string) (reg : gmap string timer) : nat :=
  size (filter (fun kv => kv.1 = h) reg).

(** What [publish] does to one message object, and to the heap after
    visiting the references of the array in order. *)
Definition encoded (o : pubsub_message) : pubsub_message :=
  match encode_data (data o) with
  | Some d => with_data o d
  | None => o
  end.

Definition encode_all (messages : list loc) (h : gmap loc pubsub_message)
    : gmap loc pubsub_message :=
  foldl (fun h m => alter encoded m h) h messages.

Definition has_payload (h : gmap loc pubsub_message) (m : loc) : Prop :=
  exists o, h !! m = Some o /\ data o <> Buffer.Undefined.

Definition append_trace (evs : list event) (st : state) : state :=
  set_trace (fun tr => tr ++ evs) st.

(** The address of a subscription's or topic's operation. *)
Definition subscription_uri (st : state) (subscription op : string) : string :=
  BASE_URL +:+ "/" +:+ ("projects/" +:+ project st +:+ "/subscriptions/" +:+ subscription) +:+ op.

Definition topic_uri (st : state) (topic op : string) : string :=
  BASE_URL +:+ "/" +:+ ("projects/" +:+ project st +:+ "/topics/" +:+ topic) +:+ op.

(** The requests the client builds. *)
Definition pull_request (st : state) (subscription : string) (opts : pull_options)
    : http_request :=
  {| uri := subscription_uri st subscription ":pull";
     body_of := PullBody (default true (returnImmediately opts))
                         (default 1%Z (maxMessages opts)) |}.

Definition modifyAckDeadline_request (st : state) (subscription : string)
    (ackIds : list string) (ackDeadline : Z) : http_request :=
  {| uri := subscription_uri st subscription ":modifyAckDeadline";
     body_of := ModifyAckDeadlineBody ackIds
                  (Number.binary64 (inject_Z ackDeadline / 1000)) |}.

Definition acknowledge_request (st : state) (subscription : string)
    (ackIds : list string) : http_request :=
  {| uri := subscription_uri st subscription ":acknowledge";
     body_of := AcknowledgeBody ackIds |}.

Definition publish_request (st : state) (topic : string)
    (messages : list pubsub_message) : http_request :=
  {| uri := topic_uri st topic ":publish"; body_of := PublishBody messages |}.

(** The events of [modifyAckDeadline] and of [acknowledge]. *)
Definition modifyAckDeadline_events (st : state) (subscription : string)
    (ackIds : list string) (ackDeadline : Z) (r : reply unit) : list event :=
  [Log (LogModifyAckDeadline subscription ackIds ackDeadline); Authenticate] ++
  (if reaches_wire r
   then [Send (modifyAckDeadline_request st subscription ackIds ackDeadline)]
   else []).

Definition acknowledge_events (st : state) (subscription : string)
    (ackIds : list string) (r : reply unit) : list event :=
  [Log (LogAcknowledge subscription ackIds); Authenticate] ++
  (if reaches_wire r then [Send (acknowledge_request st subscription ackIds)] else []).

(** The options [pullLongRunningJob] passes to [pull], and the callback it
    hands to [setInterval] for a received message. *)
Definition job_pull_options : pull_options :=
  {| returnImmediately := Some true; maxMessages := Some 1%Z |}.

Definition job_extendBy (opts : job_options) : Z := default 10000%Z (extendBy opts).

Definition job_callback (subscription : string) (opts : job_options)
    (payload : received_message) : callback :=
  {| cb_subscription := subscription;
     cb_ackId := ackId payload;
     cb_extendBy := job_extendBy opts;
     cb_period := default 10000%Z (withPeriod opts) |}.

(** The state in which [acknowledgeLongRunningJob] has stopped timer [t] and
    dropped the entry of [h], and has not yet called [acknowledge]. *)
Definition deregistered (subscription h : string) (t : timer) (st : state) : state :=
  set_longRunningJobTimers (fun reg => delete h reg)
    (set_intervals (fun iv => delete t iv)
       (append_trace [Log (LogStopping subscription h); ClearInterval t] st)).

(** What the deregistration step of [acknowledgeLongRunningJob] does for a
    handle the table does not own: nothing, unless [Object.prototype] has a
    member of that name. *)
Definition inherited_deregistration (subscription h : string) : list event :=
  if inherited h
  then [Log (LogStopping subscription h); ClearNonTimer h]
  else [].

(** The runtime's answer to the way the promise of a renewal settles. *)
Definition left_unhandled (r : reply unit) (st : state) : state :=
  match settles r with
  | Rejected e => unhandledRejection e st
  | Resolved _ => st
  end.

(** A failed renewal is reported to the log sink when the sink receives
    something else than it does for the same tick answered successfully. *)
Definition reported_to_log (t : timer) (r : reply unit) (st : state) : Prop :=
  exists st_failed st_ok,
    tick t r st = Some st_failed /\
    tick t (Replied tt) st = Some st_ok /\
    logged (trace st_failed) <> logged (trace st_ok).

(** ** The scenario of the README *)

Definition hello : received_message :=
  {| ackId := "A1";
     message := {| data := Buffer.Str (Buffer.js "aGVsbG8=");
                   attributes := [];
                   messageId := "1" |} |}.

Definition hello_decoded : received_message :=
  with_message hello (with_data (message hello) (Buffer.Str (Buffer.js "hello"))).

Definition one_message (payload : received_message) : reply (option pull_response) :=
  Replied (Some {| receivedMessages := Some [payload] |}).

Definition README_options : job_options :=
  {| extendBy := Some 15000%Z; withPeriod := Some 10000%Z |}.

Definition fresh_client : state := constructor "p" ∅.

Definition job_started : state :=
  snd (pullLongRunningJob "jobs" README_options (one_message hello) (Replied tt) fresh_client).

(** The same handle delivered a second time while its job is running. *)
Definition job_started_twice : state :=
  snd (pullLongRunningJob "jobs" README_options (one_message hello) (Replied tt) job_started).

Definition acknowledged_after_duplicate : state :=
  snd (acknowledgeLongRunningJob "jobs" "A1" (Replied tt) job_started_twice).

(** Two message objects of a caller, the second one listed twice below. *)
Definition caller_heap : gmap loc pubsub_message :=
  {[ 1%positive := {| data := Buffer.Str (Buffer.js "hello");
                      attributes := [("kind", "greeting")];
                      messageId := EmptyString |};
     2%positive := {| data := Buffer.Buf [0xFF%N; 0x00%N];
                      attributes := [];
                      messageId := EmptyString |} ]}.

(** The timers a trace has cleared. *)
Definition cleared (tr : list event) : list timer :=
  omap (fun e => match e with ClearInterval t => Some t | _ => None end) tr.

(** A pull that delivers a handle the table already holds. *)
Definition delivers_registered (a : action) (st : state) : Prop :=
  match a with
  | PullLongRunningJob _ _ (Replied (Some {| receivedMessages := Some (payload :: _) |})) _ =>
      is_Some (longRunningJobTimers st !! ackId payload)
  | _ => False
  end.

Definition same_timers (st st' : state) : Prop :=
  longRunningJobTimers st' = longRunningJobTimers st /\
  intervals st' = intervals st /\
  next_timer st' = next_timer st.

(** An execution in which no pull delivers a handle that is in the table at
    that moment. *)
Fixpoint delivers_only_new (acts : list action) (st : state) : Prop :=
  match acts with
  | [] => True
  | a :: acts' =>
      ~ delivers_registered a st /\
      match step a st with
      | Some st' => delivers_only_new acts' st'
      | None => True
      end
  end.




(** ** Further vocabulary: the rest of the client's behaviour *)

(** A JavaScript string holds 16-bit code units. *)
Definition is_code_unit (c : N) : Prop := (c < 65536)%N.

(** Every entry of the table refers to a live timer that renews the entry's
    own handle. *)
Definition registered_live (st : state) : Prop :=
  forall h t, longRunningJobTimers st !! h = Some t -> renews st t h.

(** While the process runs, every entry of the table refers to a live
    timer; once it has ended, no timer is alive. *)
Definition live_or_exited (st : state) : Prop :=
  if exited st then intervals st = ∅ else registered_live st.

(** Two states that differ at most in the trace. *)
Definition same_but_trace (st st' : state) : Prop :=
  project st' = project st /\
  longRunningJobTimers st' = longRunningJobTimers st /\
  intervals st' = intervals st /\
  next_timer st' = next_timer st /\
  heap st' = heap st /\
  unhandledRejections st' = unhandledRejections st /\
  unhandledRejectionPolicy st' = unhandledRejectionPolicy st /\
  exited st' = exited st.

(** A request addressed to the REST endpoint of project [p]. *)
Definition within_project (p : string) (req : http_request) : Prop :=
  exists rest,
    uri req = "https://pubsub.googleapis.com/v1/projects/" +:+ p +:+ "/" +:+ rest.

(** A second job, on another handle, for the scenarios below. *)
Definition world : received_message :=
  {| ackId := "B2";
     message := {| data := Buffer.Str (Buffer.js "d29ybGQ=");
                   attributes := [];
                   messageId := "2" |} |}.

Definition two_jobs_started : state :=
  snd (pullLongRunningJob "jobs" README_options (one_message world) (Replied tt) job_started).

(** A message that carries attributes only. *)
Definition attributes_only : received_message :=
  {| ackId := "C3";
     message := {| data := Buffer.Undefined;
                   attributes := [("kind", "ping")];
                   messageId := "3" |} |}.

(** A caller's array whose second object has no [data]. *)
Definition caller_heap_with_gap : gmap loc pubsub_message :=
  {[ 1%positive := {| data := Buffer.Str (Buffer.js "hello");
                      attributes := [];
                      messageId := EmptyString |};
     2%positive := {| data := Buffer.Undefined;
                      attributes := [("kind", "ping")];
                      messageId := EmptyString |};
     3%positive := {| data := Buffer.Str (Buffer.js "world");
                      attributes := [];
                      messageId := EmptyString |} ]}.

(** Two states with the same project and the same trace. *)
Definition same_project_and_trace (st st' : state) : Prop :=
  project st' = project st /\ trace st' = trace st.

Module BufferFacts.
Import Buffer.
Local Open Scope N_scope.

(** Checking a boolean property of every number below a bound. *)
Lemma below_forallb (P : N -> bool) (n : nat) :
  forallb P (map N.of_nat (seq 0 n)) = true ->
  forall x, x < N.of_nat n -> P x = true.
Proof.
  intros H x Hx. rewrite forallb_forall in H. apply H.
  apply in_map_iff. exists (N.to_nat x). split; [apply N2Nat.id|].
  apply in_seq. lia.
Qed.

Lemma below_forallb2 (P : N -> N -> bool) (n m : nat) :
  forallb (fun x => forallb (P x) (map N.of_nat (seq 0 m))) (map N.of_nat (seq 0 n)) = true ->
  forall x y, x < N.of_nat n -> y < N.of_nat m -> P x y = true.
Proof.
  intros H x y Hx Hy.
  apply (below_forallb (P x) m); [|exact Hy].
  exact (below_forallb (fun x => forallb (P x) (map N.of_nat (seq 0 m))) n H x Hx).
Qed.

(** Facts about one, two octets or a sextet, settled by running the
    check on every value. *)
Ltac every_octet x Hx :=
  revert x Hx; refine (below_forallb _ 256 _); vm_compute; reflexivity.
Ltac every_octet2 x y Hx Hy :=
  revert x y Hx Hy; refine (below_forallb2 _ 256 256 _); vm_compute; reflexivity.

Lemma unbase64_char v : v < 64 -> unbase64 (base64_char v) = Some v.
Proof.
  intros Hv.
  assert (H : match unbase64 (base64_char v) with Some w => w =? v | None => false end = true).
  { revert v Hv. refine (below_forallb _ 64 _). vm_compute; reflexivity. }
  destruct (unbase64 (base64_char v)); [|discriminate].
  apply N.eqb_eq in H. congruence.
Qed.

Lemma sextet1_lt x : x < 256 -> N.shiftr x 2 < 64.
Proof. intros Hx. apply N.ltb_lt. every_octet x Hx. Qed.

Lemma sextet2_lt x y :
  x < 256 -> y < 256 -> N.lor (N.shiftl (N.land x 0x03) 4) (N.shiftr y 4) < 64.
Proof. intros Hx Hy. apply N.ltb_lt. every_octet2 x y Hx Hy. Qed.

Lemma sextet2_last_lt x : x < 256 -> N.shiftl (N.land x 0x03) 4 < 64.
Proof. intros Hx. apply N.ltb_lt. every_octet x Hx. Qed.

Lemma sextet3_lt y z :
  y < 256 -> z < 256 -> N.lor (N.shiftl (N.land y 0x0F) 2) (N.shiftr z 6) < 64.
Proof. intros Hy Hz. apply N.ltb_lt. every_octet2 y z Hy Hz. Qed.

Lemma sextet3_last_lt y : y < 256 -> N.shiftl (N.land y 0x0F) 2 < 64.
Proof. intros Hy. apply N.ltb_lt. every_octet y Hy. Qed.

Lemma sextet4_lt z : z < 256 -> N.land z 0x3F < 64.
Proof. intros Hz. apply N.ltb_lt. every_octet z Hz. Qed.

(** The three octets of a group, recovered from its four sextets. *)
Lemma octet1_of_sextets x y :
  x < 256 -> y < 256 ->
  N.lor (N.shiftl (N.land (N.shiftr x 2) 0x3F) 2)
        (N.shiftr (N.land (N.lor (N.shiftl (N.land x 0x03) 4) (N.shiftr y 4)) 0x30) 4) = x.
Proof. intros Hx Hy. apply N.eqb_eq. every_octet2 x y Hx Hy. Qed.

Lemma octet1_of_last_sextets x :
  x < 256 ->
  N.lor (N.shiftl (N.land (N.shiftr x 2) 0x3F) 2)
        (N.shiftr (N.land (N.shiftl (N.land x 0x03) 4) 0x30) 4) = x.
Proof. intros Hx. apply N.eqb_eq. every_octet x Hx. Qed.

Lemma sextet2_low x y :
  x < 256 -> y < 256 ->
  N.land (N.lor (N.shiftl (N.land x 0x03) 4) (N.shiftr y 4)) 0x0F = N.shiftr y 4.
Proof. intros Hx Hy. apply N.eqb_eq. every_octet2 x y Hx Hy. Qed.

Lemma sextet3_high y z :
  y < 256 -> z < 256 ->
  N.shiftr (N.land (N.lor (N.shiftl (N.land y 0x0F) 2) (N.shiftr z 6)) 0x3C) 2
  = N.land y 0x0F.
Proof. intros Hy Hz. apply N.eqb_eq. every_octet2 y z Hy Hz. Qed.

Lemma sextet3_last_high y :
  y < 256 -> N.shiftr (N.land (N.shiftl (N.land y 0x0F) 2) 0x3C) 2 = N.land y 0x0F.
Proof. intros Hy. apply N.eqb_eq. every_octet y Hy. Qed.

Lemma octet_of_nibbles y :
  y < 256 -> N.lor (N.shiftl (N.shiftr y 4) 4) (N.land y 0x0F) = y.
Proof. intros Hy. apply N.eqb_eq. every_octet y Hy. Qed.

Lemma octet3_of_sextets y z :
  y < 256 -> z < 256 ->
  N.lor (N.shiftl (N.land (N.lor (N.shiftl (N.land y 0x0F) 2) (N.shiftr z 6)) 0x03) 6)
        (N.land (N.land z 0x3F) 0x3F) = z.
Proof. intros Hy Hz. apply N.eqb_eq. every_octet2 y z Hy Hz. Qed.

Lemma base64_char_octet v : v < 64 -> N.land (base64_char v) 0xFF = base64_char v.
Proof.
  intros Hv. apply N.eqb_eq.
  revert v Hv. refine (below_forallb _ 64 _). vm_compute; reflexivity.
Qed.

Lemma sextets_char v s : v < 64 -> sextets (base64_char v :: s) = v :: sextets s.
Proof. intros Hv. cbn [sextets]. by rewrite base64_char_octet, unbase64_char. Qed.

Lemma sextets_pad s : sextets (pad :: s) = [].
Proof. reflexivity. Qed.

(** Decoding what [toString('base64')] wrote gives the octets back. *)
Lemma base64_roundtrip_upto (n : nat) (b : bytes) :
  (length b <= n)%nat -> Forall is_octet b -> base64Write (base64Slice b) = b.
Proof.
  unfold base64Write, is_octet. revert b.
  induction n as [|n IH]; intros b Hlen Hb.
  { destruct b; [reflexivity | simpl in Hlen; lia]. }
  destruct b as [|x [|y [|z rest]]].
  - reflexivity.
  - apply Forall_cons in Hb as [Hx _].
    cbn [base64Slice]. rewrite !sextets_char by auto using sextet1_lt, sextet2_last_lt.
    rewrite sextets_pad. cbn [base64_groups].
    by rewrite octet1_of_last_sextets.
  - apply Forall_cons in Hb as [Hx Hb]. apply Forall_cons in Hb as [Hy _].
    cbn [base64Slice].
    rewrite !sextets_char by auto using sextet1_lt, sextet2_lt, sextet3_last_lt.
    rewrite sextets_pad. cbn [base64_groups].
    rewrite octet1_of_sextets, sextet2_low, sextet3_last_high, octet_of_nibbles by assumption.
    reflexivity.
  - apply Forall_cons in Hb as [Hx Hb]. apply Forall_cons in Hb as [Hy Hb].
    apply Forall_cons in Hb as [Hz Hb].
    cbn [base64Slice app].
    rewrite !sextets_char by auto using sextet1_lt, sextet2_lt, sextet3_lt, sextet4_lt.
    cbn [base64_groups app].
    rewrite octet1_of_sextets, sextet2_low, sextet3_high, octet_of_nibbles,
      octet3_of_sextets by assumption.
    rewrite IH; [reflexivity | simpl in Hlen; lia | assumption].
Qed.

Lemma base64_roundtrip (b : bytes) :
  Forall is_octet b -> base64Write (base64Slice b) = b.
Proof. apply (base64_roundtrip_upto (length b)). lia. Qed.

Lemma utf8Write_ascii (s : jsstring) : Forall is_ascii s -> utf8Write s = s.
Proof.
  unfold is_ascii. induction 1 as [|c s Hc _ IH]; [reflexivity|].
  cbn [utf8Write]. unfold is_lead_surrogate, is_trail_surrogate, utf8_of_code_point.
  assert ((0xD800 <=? c) = false) as -> by (apply N.leb_gt; lia).
  assert ((0xDC00 <=? c) = false) as -> by (apply N.leb_gt; lia).
  assert ((c <? 0x80) = true) as -> by (apply N.ltb_lt; lia).
  cbn [andb app]. by rewrite IH.
Qed.

Lemma asciiSlice_ascii (b : bytes) : Forall is_ascii b -> asciiSlice b = b.
Proof.
  unfold is_ascii, asciiSlice. induction 1 as [|c s Hc _ IH]; [reflexivity|].
  cbn [map]. rewrite IH. f_equal.
  change 0x7F with (N.ones 7). rewrite N.land_ones. apply N.mod_small. exact Hc.
Qed.

Lemma asciiSlice_is_ascii (b : bytes) : Forall is_ascii (asciiSlice b).
Proof.
  unfold is_ascii, asciiSlice. induction b as [|x b IH]; [apply Forall_nil_2|].
  cbn [map]. apply Forall_cons_2; [|exact IH].
  change 0x7F with (N.ones 7). rewrite N.land_ones. by apply N.mod_lt.
Qed.

Lemma ascii_octets (s : jsstring) : Forall is_ascii s -> Forall is_octet s.
Proof.
  intros H. eapply Forall_impl; [exact H|]. unfold is_ascii, is_octet. lia.
Qed.
End BufferFacts.

(** ** Facts about the rounding of [/] *)

Module NumberFacts.
Import Number.
Local Open Scope Z_scope.

Lemma round_half_even_bounds (n d : Z) :
  0 < d ->
  2 * n - d <= 2 * (round_half_even n d * d) <= 2 * n + d.
Proof.
  intros Hd. unfold round_half_even.
  pose proof (Z.div_mod n d ltac:(lia)) as Hn.
  pose proof (Z.mod_pos_bound n d Hd) as Hr.
  set (q := n / d) in *. set (r := n mod d) in *.
  destruct (Z.ltb_spec (2 * r) d); [nia|].
  destruct (Z.ltb_spec d (2 * r)); [nia|].
  destruct (Z.even q); nia.
Qed.

Lemma round_half_even_exact (k d : Z) :
  0 < d -> round_half_even (k * d) d = k.
Proof.
  intros Hd. unfold round_half_even.
  rewrite Z.div_mul, Z.mod_mul by lia.
  destruct (Z.ltb_spec (2 * 0) d); [reflexivity | lia].
Qed.

(** The quotient by 1000 of a whole number up to 2^53 is below 2^44, so
    its last binary place is 2^-9 or finer. *)
Lemma binary64_of_millis (p : positive) :
  Zpos p <= 2 ^ 53 ->
  exists k : Z,
    9 <= k /\
    binary64 (inject_Z (Zpos p) / 1000) =
      (round_half_even (Zpos p * 2 ^ k) 1000 # Z.to_pos (2 ^ k)).
Proof.
  intros Hp.
  unfold binary64.
  change (Qnum (inject_Z (Zpos p) / 1000)) with (Zpos (p * 1)).
  change (Qden (inject_Z (Zpos p) / 1000)) with 1000%positive.
  rewrite Pos.mul_1_r.
  unfold binary64_pos.
  change (Z.log2 1000 + 1) with 10.
  set (l := Z.log2 (Z.pos p * 2 ^ 10 / 1000)).
  assert (Hl : 0 <= l < 54).
  { split; [apply Z.log2_nonneg|].
    assert (Ht : 0 < Z.pos p * 2 ^ 10 / 1000).
    { apply Z.div_str_pos. change (2 ^ 10) with 1024. lia. }
    apply Z.log2_lt_pow2; [exact Ht|].
    apply Z.div_lt_upper_bound; [lia|].
    change (2 ^ 10) with 1024. change (2 ^ 53) with 9007199254740992 in Hp.
    change (2 ^ 54) with 18014398509481984. lia. }
  destruct (Z.ltb_spec (l - 10 - 52) 0) as [_|]; [|lia].
  exists (- (l - 10 - 52)). split; [lia | reflexivity].
Qed.

Lemma pow2_ge_512 (k : Z) : 9 <= k -> 512 <= 2 ^ k.
Proof.
  intros Hk. change 512 with (2 ^ 9). apply Z.pow_le_mono_r; lia.
Qed.

Lemma whole_between (q : Q) (f : Z) :
  (inject_Z f < q)%Q -> (q < inject_Z (f + 1))%Q -> ~ whole_seconds q.
Proof.
  intros Hlo Hhi [n Hn]. rewrite Hn in Hlo, Hhi.
  rewrite <- Zlt_Qlt in Hlo, Hhi. lia.
Qed.

(** The binary64 quotient of a whole number of milliseconds up to 2^53. *)
Lemma binary64_millis (d : Z) :
  0 <= d <= 2 ^ 53 ->
  let q := binary64 (inject_Z d / 1000) in
  (whole_seconds q <-> d mod 1000 = 0) /\
  (d mod 1000 = 0 -> (q == inject_Z (d / 1000))%Q) /\
  (d mod 1000 <> 0 -> (inject_Z (d / 1000) < q /\ q < inject_Z (d / 1000 + 1))%Q) /\
  (inject_Z d - 1 < q * 1000 /\ q * 1000 < inject_Z d + 1)%Q.
Proof.
  intros [Hd0 Hd] q.
  destruct d as [|p|p]; [|clear Hd0|lia].
  { subst q. change (binary64 (inject_Z 0 / 1000)) with 0%Q.
    split; [split; [reflexivity | intros _; exists 0; reflexivity]|].
    split; [intros _; reflexivity|].
    split; [intros H; exfalso; apply H; reflexivity|].
    split; reflexivity. }
  destruct (binary64_of_millis p Hd) as (k & Hk & Hq).
  subst q. rewrite Hq. clear Hq.
  pose proof (pow2_ge_512 k Hk) as HE.
  set (E := 2 ^ k) in *.
  pose proof (round_half_even_bounds (Z.pos p * E) 1000 ltac:(lia)) as Hm.
  pose proof (Z.div_mod (Z.pos p) 1000 ltac:(lia)) as Hdm.
  pose proof (Z.mod_pos_bound (Z.pos p) 1000 ltac:(lia)) as Hr.
  set (f := Z.pos p / 1000) in *. set (r := Z.pos p mod 1000) in *.
  assert (Hexact : r = 0 -> round_half_even (Z.pos p * E) 1000 = f * E).
  { intros Hr0. replace (Z.pos p * E) with (f * E * 1000) by lia.
    apply round_half_even_exact. lia. }
  set (m := round_half_even (Z.pos p * E) 1000) in *.
  assert (Hbetween : r <> 0 ->
            (inject_Z f < m # Z.to_pos E /\ m # Z.to_pos E < inject_Z (f + 1))%Q).
  { intros Hr0. unfold Qlt; cbn [Qnum Qden inject_Z].
    rewrite Z2Pos.id by lia. nia. }
  assert (Hwhole : r = 0 -> (m # Z.to_pos E == inject_Z f)%Q).
  { intros Hr0. rewrite (Hexact Hr0). unfold Qeq; cbn [Qnum Qden inject_Z].
    rewrite Z2Pos.id by lia. lia. }
  split.
  { split.
    - intros Hw. destruct (Z.eq_dec r 0) as [|Hne]; [assumption|].
      exfalso. destruct (Hbetween Hne) as [Hlo Hhi].
      exact (whole_between _ _ Hlo Hhi Hw).
    - intros Hr0. exists f. exact (Hwhole Hr0). }
  split; [exact Hwhole|].
  split; [exact Hbetween|].
  unfold Qlt, Qminus, Qplus, Qmult, Qopp; cbn [Qnum Qden inject_Z].
  rewrite ?Pos.mul_1_r, ?Z.mul_1_r. rewrite Z2Pos.id by lia. nia.
Qed.
End NumberFacts.

(** ** What each method does, as an equation *)

Ltac run_client :=
  lazy beta iota zeta delta
    [pullLongRunningJob acknowledgeLongRunningJob publish
     pull modifyAckDeadline acknowledge formatSubscription formatTopic
     addAuthentication request setInterval clearInterval log emit
     modify gets bind ret throw settles reaches_wire fst snd
     receivedMessages no_messages].

Ltac same_state :=
  lazy beta iota zeta delta
    [deregistered append_trace set_trace set_intervals set_longRunningJobTimers
     set_next_timer set_heap set_unhandledRejections
     modifyAckDeadline_events acknowledge_events
     project longRunningJobTimers intervals next_timer heap trace
     unhandledRejections unhandledRejectionPolicy exited];
  rewrite <- ?app_assoc; try reflexivity.

Lemma pull_run subscription opts r st :
  pull subscription opts r st =
  (settles r,
   append_trace
     ([Authenticate] ++
      (if reaches_wire r
       then [Log (LogPull subscription (pull_request st subscription opts));
             Send (pull_request st subscription opts)]
       else [])) st).
Proof. destruct r; run_client; same_state. Qed.

Lemma modifyAckDeadline_run subscription ackIds ackDeadline r st :
  modifyAckDeadline subscription ackIds ackDeadline r st =
  (settles r,
   append_trace (modifyAckDeadline_events st subscription ackIds ackDeadline r) st).
Proof. destruct r; run_client; same_state. Qed.

Lemma acknowledge_run subscription ackIds r st :
  acknowledge subscription ackIds r st =
  (settles r, append_trace (acknowledge_events st subscription ackIds r) st).
Proof. destruct r; run_client; same_state. Qed.

Lemma acknowledgeLongRunningJob_registered subscription h t r st :
  longRunningJobTimers st !! h = Some t ->
  acknowledgeLongRunningJob subscription h r st =
  acknowledge subscription [h] r (deregistered subscription h t st).
Proof.
  intros Ht. unfold acknowledgeLongRunningJob, get, gets, bind at 1 2.
  rewrite Ht. rewrite !acknowledge_run. destruct r; run_client; same_state.
Qed.

Lemma acknowledgeLongRunningJob_not_inherited subscription h r st :
  longRunningJobTimers st !! h = None ->
  inherited h = false ->
  acknowledgeLongRunningJob subscription h r st = acknowledge subscription [h] r st.
Proof.
  intros Ht Hh. unfold acknowledgeLongRunningJob, get, gets, bind at 1 2.
  rewrite Ht, Hh. reflexivity.
Qed.

Lemma acknowledgeLongRunningJob_unregistered subscription h r st :
  longRunningJobTimers st !! h = None ->
  acknowledgeLongRunningJob subscription h r st =
  (settles r,
   append_trace
     (inherited_deregistration subscription h ++
      acknowledge_events st subscription [h] r) st).
Proof.
  intros Ht. unfold inherited_deregistration.
  destruct (inherited h) eqn:Hh.
  - unfold acknowledgeLongRunningJob, get, gets, bind at 1 2.
    rewrite Ht, Hh.
    destruct st as [p reg iv n hp tr u pol ex]. cbn [longRunningJobTimers] in Ht.
    destruct r; run_client; same_state.
    all: rewrite (delete_id _ _ Ht); reflexivity.
  - rewrite acknowledgeLongRunningJob_not_inherited by done. apply acknowledge_run.
Qed.

(** The state in which [pullLongRunningJob] leaves the client once it has
    taken [payload] from the response. *)
Lemma pullLongRunningJob_message subscription opts payload rest r st :
  pullLongRunningJob subscription opts
    (Replied (Some {| receivedMessages := Some (payload :: rest) |})) r st =
  (match settles r with
   | Rejected e => Rejected e
   | Resolved _ =>
       match decode_data (data (message payload)) with
       | None => Rejected TypeError
       | Some d => Resolved (Some (with_message payload (with_data (message payload) d)))
       end
   end,
   {| project := project st;
      longRunningJobTimers := <[ackId payload := next_timer st]> (longRunningJobTimers st);
      intervals := <[next_timer st := job_callback subscription opts payload]> (intervals st);
      next_timer := Pos.succ (next_timer st);
      heap := heap st;
      trace := trace st ++
        [Authenticate;
         Log (LogPull subscription (pull_request st subscription job_pull_options));
         Send (pull_request st subscription job_pull_options);
         Log (LogReceived subscription (Some {| receivedMessages := Some (payload :: rest) |}));
         Log (LogStarting subscription (ackId payload));
         SetInterval (next_timer st) (job_callback subscription opts payload)] ++
        modifyAckDeadline_events st subscription [ackId payload] (job_extendBy opts) r;
      unhandledRejections := unhandledRejections st;
      unhandledRejectionPolicy := unhandledRejectionPolicy st;
      exited := exited st |}).
Proof.
  destruct r as [msg|msg|[]]; run_client; same_state.
  all: destruct (decode_data (data (message payload))); reflexivity.
Qed.

Lemma pullLongRunningJob_no_message subscription opts results r st :
  no_messages results = true ->
  pullLongRunningJob subscription opts (Replied results) r st =
  (Resolved None,
   append_trace
     [Authenticate;
      Log (LogPull subscription (pull_request st subscription job_pull_options));
      Send (pull_request st subscription job_pull_options);
      Log (LogReceived subscription results)] st).
Proof.
  intros Hno. destruct results as [[[[|p rest]|]]|]; try discriminate Hno.
  all: run_client; same_state.
Qed.

Lemma pullLongRunningJob_pull_rejected subscription opts (r_pull : reply (option pull_response)) r st :
  (forall results, r_pull <> Replied results) ->
  pullLongRunningJob subscription opts r_pull r st =
  (match settles r_pull with Rejected e => Rejected e | Resolved _ => Resolved None end,
   append_trace
     ([Authenticate] ++
      (if reaches_wire r_pull
       then [Log (LogPull subscription (pull_request st subscription job_pull_options));
             Send (pull_request st subscription job_pull_options)]
       else [])) st).
Proof.
  intros Hr. destruct r_pull as [msg|msg|results]; [| |by destruct (Hr results)].
  all: run_client; same_state.
Qed.

Lemma tick_run t cb r st :
  intervals st !! t = Some cb ->
  tick t r st =
  Some (left_unhandled r
          (append_trace
             (Log (LogLoop (cb_subscription cb) (cb_ackId cb)) ::
              modifyAckDeadline_events st (cb_subscription cb) [cb_ackId cb] (cb_extendBy cb) r)
             st)).
Proof.
  intros Hcb. unfold tick. rewrite Hcb.
  destruct r as [msg|msg|[]]; run_client; unfold left_unhandled; cbn [settles]; same_state.
Qed.

Lemma step_perform a st st' : step a st = Some st' -> perform a st = Some st'.
Proof. unfold step. by destruct (exited st). Qed.

(** What the runtime's answer leaves in place. *)
Lemma left_unhandled_frame r st :
  project (left_unhandled r st) = project st /\
  longRunningJobTimers (left_unhandled r st) = longRunningJobTimers st /\
  next_timer (left_unhandled r st) = next_timer st /\
  heap (left_unhandled r st) = heap st /\
  trace (left_unhandled r st) = trace st /\
  unhandledRejections (left_unhandled r st) = unhandledRejections st ++ rejection r.
Proof.
  unfold left_unhandled, rejection, unhandledRejection.
  destruct (settles r) as [[]|e]; cbn.
  - by rewrite app_nil_r.
  - by destruct (unhandledRejectionPolicy st).
Qed.

Lemma trace_left_unhandled r st : trace (left_unhandled r st) = trace st.
Proof. apply left_unhandled_frame. Qed.

Lemma project_left_unhandled r st : project (left_unhandled r st) = project st.
Proof. apply left_unhandled_frame. Qed.

(** The live timers after the runtime's answer: all of them, or none. *)
Lemma left_unhandled_intervals r st :
  (intervals (left_unhandled r st) = intervals st /\
   exited (left_unhandled r st) = exited st) \/
  (intervals (left_unhandled r st) = ∅ /\
   exited (left_unhandled r st) = true).
Proof.
  unfold left_unhandled, unhandledRejection.
  destruct (settles r) as [[]|e]; cbn; [by left|].
  destruct (unhandledRejectionPolicy st); cbn; [by right | by left].
Qed.

Lemma tick_timers t r st st' :
  tick t r st = Some st' ->
  longRunningJobTimers st' = longRunningJobTimers st /\
  next_timer st' = next_timer st /\
  ((intervals st' = intervals st /\ exited st' = exited st) \/
   (intervals st' = ∅ /\ exited st' = true)).
Proof.
  intros Htick. destruct (intervals st !! t) as [cb|] eqn:Hcb.
  - rewrite (tick_run _ _ _ _ Hcb) in Htick. injection Htick as <-.
    set (st1 := append_trace _ st).
    destruct (left_unhandled_frame r st1) as (_ & -> & -> & _).
    split; [reflexivity|]. split; [reflexivity|].
    exact (left_unhandled_intervals r st1).
  - unfold tick in Htick. by rewrite Hcb in Htick.
Qed.

(** ** [publish] and the caller's objects *)

Lemma insert_as_alter {A} (f : A -> A) (h : gmap loc A) m o :
  h !! m = Some o -> <[m := f o]> h = alter f m h.
Proof.
  intros Ho. apply map_eq. intros k.
  rewrite lookup_insert, lookup_alter.
  destruct (decide (m = k)) as [->|]; [by rewrite Ho | done].
Qed.

Lemma encoded_has_payload o :
  data o <> Buffer.Undefined -> data (encoded o) <> Buffer.Undefined.
Proof.
  unfold encoded, encode_data. destruct (data o) eqn:Hd; cbn; rewrite ?Hd; congruence.
Qed.

Lemma has_payload_alter h m m' :
  has_payload h m' -> has_payload (alter encoded m h) m'.
Proof.
  intros (o & Ho & Hd). unfold has_payload. rewrite lookup_alter.
  destruct (decide (m = m')) as [->|].
  - exists (encoded o). rewrite Ho. split; [done | by apply encoded_has_payload].
  - exists o. done.
Qed.

Lemma encode_message_run m st :
  has_payload (heap st) m ->
  encode_message m st = (Resolved m, set_heap (alter encoded m) st).
Proof.
  intros (o & Ho & Hd). unfold encode_message, deref, gets, bind at 1 2.
  rewrite Ho. unfold ret at 1.
  assert (exists d, encode_data (data o) = Some d /\ encoded o = with_data o d) as (d & Hd' & He).
  { unfold encoded. destruct (encode_data (data o)) eqn:E; [eauto|].
    unfold encode_data in E. destruct (data o); [congruence|discriminate..]. }
  rewrite Hd'. unfold bind, modify, ret, set_heap. cbn.
  by rewrite <- He, (insert_as_alter encoded _ _ _ Ho).
Qed.

Lemma mapM_encode_message_run ms : forall st,
  Forall (has_payload (heap st)) ms ->
  mapM encode_message ms st = (Resolved ms, set_heap (encode_all ms) st).
Proof.
  induction ms as [|m ms IH]; intros st Hms.
  - by destruct st.
  - apply Forall_cons in Hms as [Hm Hms].
    cbn [mapM]. unfold bind at 1. rewrite (encode_message_run _ _ Hm).
    unfold bind at 1. rewrite IH.
    + reflexivity.
    + eapply Forall_impl; [exact Hms|]. intros m'. apply has_payload_alter.
Qed.

Lemma mapM_deref_run ms : forall st objs,
  Forall2 (fun m o => heap st !! m = Some o) ms objs ->
  mapM deref ms st = (Resolved objs, st).
Proof.
  induction ms as [|m ms IH]; intros st objs H; inversion H as [|? o ? objs' Ho Hrest]; subst.
  - reflexivity.
  - assert (deref m st = (Resolved o, st)) as Hm
      by (unfold deref, gets, bind; by rewrite Ho).
    cbn [mapM]. unfold bind at 1. rewrite Hm.
    unfold bind at 1. by rewrite (IH st objs' Hrest).
Qed.

Lemma iter_encoded_swap n o : Nat.iter n encoded (encoded o) = encoded (Nat.iter n encoded o).
Proof. by rewrite <- Nat.iter_succ_r. Qed.

(** Each occurrence of a reference in the array encodes its object once more. *)
Lemma lookup_encode_all ms : forall h m,
  encode_all ms h !! m = Nat.iter (count_occ Pos.eq_dec ms m) encoded <$> h !! m.
Proof.
  induction ms as [|a ms IH]; intros h m.
  - cbn. by destruct (h !! m).
  - unfold encode_all in *. cbn [foldl]. rewrite IH, lookup_alter. cbn [count_occ].
    destruct (Pos.eq_dec a m) as [->|Hne].
    + rewrite decide_True by done. destruct (h !! m); cbn; [|done].
      by rewrite iter_encoded_swap.
    + by rewrite decide_False.
Qed.

Lemma iter_encoded_frame n o :
  attributes (Nat.iter n encoded o) = attributes o /\
  messageId (Nat.iter n encoded o) = messageId o.
Proof.
  induction n as [|n [IHa IHm]]; [done|]. rewrite Nat.iter_succ.
  unfold encoded at 1 3. destruct (encode_data _); cbn; auto.
Qed.

Lemma allocated_objects (h : gmap loc pubsub_message) ms :
  Forall (fun m => is_Some (h !! m)) ms ->
  exists objs, Forall2 (fun m o => h !! m = Some o) ms objs.
Proof.
  induction 1 as [|m ms [o Ho] _ [objs IH]]; [by exists []|].
  exists (o :: objs). by constructor.
Qed.

(** ** The payload codec *)

(** C2 (counterexample): the payload "é" (one code unit, 233) is published
    as the two octets of its UTF-8 form and comes back from the pull path as
    the two characters "C)", each octet with its high bit cleared. *)
Lemma non_ascii_payload_not_restored :
  roundtrip (Buffer.Str [233%N]) = Some (Buffer.Str [67%N; 41%N]) /\
  roundtrip (Buffer.Str [233%N]) <> Some (Buffer.Str [233%N]).
Proof. split; [reflexivity | discriminate]. Qed.

(** C2 (as amended): for every payload that is a string of ASCII
    characters (code units below 128), the empty string included, decoding
    as [pullLongRunningJob] does the encoding made by [publish] yields the
    payload again, and these are the only payloads that come back
    unchanged; the empty payload is encoded as the empty string and decoded
    as the empty string. *)
Theorem ascii_payload_roundtrip :
  (forall v, roundtrip v = Some v <->
             exists s, v = Buffer.Str s /\ Forall Buffer.is_ascii s) /\
  encode_data (Buffer.Str []) = Some (Buffer.Str []) /\
  decode_data (Buffer.Str []) = Some (Buffer.Str []).
Proof.
  split; [|split; reflexivity].
  intros v. split.
  - unfold roundtrip, encode_data, decode_data.
    destruct v as [|s|b]; cbn [Buffer.from Buffer.from_base64];
      [discriminate| |discriminate].
    intros [= Hs]. exists s. split; [reflexivity|].
    rewrite <- Hs. apply BufferFacts.asciiSlice_is_ascii.
  - intros (s & -> & Hs). unfold roundtrip, encode_data, decode_data.
    cbn [Buffer.from Buffer.from_base64].
    rewrite BufferFacts.utf8Write_ascii by exact Hs.
    rewrite BufferFacts.base64_roundtrip by (by apply BufferFacts.ascii_octets).
    by rewrite BufferFacts.asciiSlice_ascii.
Qed.

Lemma hello_survives_the_codec :
  roundtrip (Buffer.Str (Buffer.js "hello")) = Some (Buffer.Str (Buffer.js "hello")).
Proof.
  apply (proj1 ascii_payload_roundtrip (Buffer.Str (Buffer.js "hello"))).
  exists (Buffer.js "hello"). split; [reflexivity|].
  repeat (apply Forall_cons_2; [reflexivity|]). apply Forall_nil_2.
Defined.

(** ** The deadline sent by [modifyAckDeadline] *)

Lemma ackDeadlineSeconds_sent_app tr1 tr2 :
  ackDeadlineSeconds_sent (tr1 ++ tr2) = ackDeadlineSeconds_sent tr1 ++ ackDeadlineSeconds_sent tr2.
Proof. apply omap_app. Qed.

(** C7 (counterexample): a deadline of 1500 ms goes out as 3/2, which is
    no whole number of seconds. *)
Lemma fractional_ackDeadlineSeconds :
  exists q,
    ackDeadlineSeconds_sent
      (trace (snd (modifyAckDeadline "jobs" ["A1"] 1500 (Replied tt) (constructor "p" ∅))))
    = [q] /\ ~ whole_seconds q.
Proof.
  exists (Number.binary64 (inject_Z 1500 / 1000)). split; [reflexivity|].
  destruct (NumberFacts.binary64_millis 1500) as (_ & _ & Hbetween & _); [lia|].
  destruct Hbetween as [Hlo Hhi]; [discriminate|].
  exact (NumberFacts.whole_between _ _ Hlo Hhi).
Qed.

(** C7 (as amended): for every whole number [d] of milliseconds from 0 to
    2^53, [modifyAckDeadline] sends as [ackDeadlineSeconds] the quotient
    d/1000 of JavaScript's division, a binary64 number that is not brought
    to whole seconds: it is the whole number d/1000 exactly when [d] is
    divisible by 1000, and lies strictly between two consecutive whole
    numbers otherwise, less than a thousandth away from the exact
    quotient. *)
Theorem ackDeadlineSeconds_is_binary64_quotient
    (subscription : string) (ackIds : list string) (d : Z) (r : reply unit) (st : state) :
  reaches_wire r = true ->
  (0 <= d <= 2 ^ 53)%Z ->
  exists q,
    ackDeadlineSeconds_sent (trace (snd (modifyAckDeadline subscription ackIds d r st)))
    = ackDeadlineSeconds_sent (trace st) ++ [q] /\
    q = Number.binary64 (inject_Z d / 1000) /\
    (whole_seconds q <-> (d mod 1000 = 0)%Z) /\
    ((d mod 1000 = 0)%Z -> (q == inject_Z (d / 1000))%Q) /\
    ((d mod 1000 <> 0)%Z -> (inject_Z (d / 1000) < q /\ q < inject_Z (d / 1000 + 1))%Q) /\
    (inject_Z d - 1 < q * 1000 /\ q * 1000 < inject_Z d + 1)%Q.
Proof.
  intros Hr Hd. exists (Number.binary64 (inject_Z d / 1000)).
  split; [|split; [reflexivity | exact (NumberFacts.binary64_millis d Hd)]].
  rewrite modifyAckDeadline_run. cbn [snd]. unfold append_trace, set_trace. cbn [trace].
  rewrite ackDeadlineSeconds_sent_app. unfold modifyAckDeadline_events. rewrite Hr.
  reflexivity.
Qed.

Lemma fifteen_seconds_sent :
  exists q,
    ackDeadlineSeconds_sent
      (trace (snd (modifyAckDeadline "jobs" ["A1"] 15000 (Failed "reset") (constructor "p" ∅))))
    = ackDeadlineSeconds_sent (trace (constructor "p" ∅)) ++ [q] /\
    q = Number.binary64 (inject_Z 15000 / 1000) /\
    (whole_seconds q <-> (15000 mod 1000 = 0)%Z) /\
    ((15000 mod 1000 = 0)%Z -> (q == inject_Z (15000 / 1000))%Q) /\
    ((15000 mod 1000 <> 0)%Z ->
     (inject_Z (15000 / 1000) < q /\ q < inject_Z (15000 / 1000 + 1))%Q) /\
    (inject_Z 15000 - 1 < q * 1000 /\ q * 1000 < inject_Z 15000 + 1)%Q.
Proof.
  apply (ackDeadlineSeconds_is_binary64_quotient "jobs" ["A1"] 15000 (Failed "reset")).
  - reflexivity.
  - vm_compute. split; discriminate.
Defined.

(** The rounding agrees with the binary64 division of the kernel's floats
    on small, on fractional and on large deadlines, and on every deadline
    of the first second and of the last hundred up to 2^53. *)
Example binary64_is_float_division :
  forallb Number.agrees_with_float
    [0; 1; 7; 999; 1000; 1001; 1500; 10000; 15000; 86400000; 123456789;
     2 ^ 53 - 1; 2 ^ 53; 2 ^ 62; 2 ^ 200 + 2 ^ 150; -1500]%Z = true /\
  forallb Number.agrees_with_float (map Z.of_nat (seq 0 1001)) = true /\
  forallb Number.agrees_with_float
    (map (fun i => 2 ^ 53 - Z.of_nat i)%Z (seq 0 100)) = true.
Proof. split; [|split]; vm_compute; reflexivity. Qed.

(** Beyond 2^53 the rounding shows: 2^62 ms is no multiple of 1000 and
    goes out as a whole number. *)
Example large_deadline_is_rounded :
  (2 ^ 62 mod 1000 = 904)%Z /\
  (Number.binary64 (inject_Z (2 ^ 62) / 1000) == inject_Z 4611686018427388)%Q.
Proof. split; vm_compute; reflexivity. Qed.

(** ** Pulling a long-running job *)

Lemma no_messages_false results :
  no_messages results = false ->
  exists payload rest, results = Some {| receivedMessages := Some (payload :: rest) |}.
Proof.
  destruct results as [[[[|p rest]|]]|]; try discriminate. eauto.
Qed.

Lemma effects_app tr1 tr2 : effects (tr1 ++ tr2) = effects tr1 ++ effects tr2.
Proof. apply List.filter_app. Qed.

(** C4: when the pull is answered with no message (no body, no
    [receivedMessages] field, or an empty array), [pullLongRunningJob]
    resolves to the absent value, which is not a rejection; the table, the
    live timers and the timer supply are as before, and the only effects are
    the authentication and the pull request.  A failed pull, by contrast,
    rejects. *)
Theorem no_message_resolves_absent
    (subscription : string) (opts : job_options) (results : option pull_response)
    (r : reply unit) (st : state) :
  no_messages results = true ->
  exists st',
    pullLongRunningJob subscription opts (Replied results) r st = (Resolved None, st') /\
    longRunningJobTimers st' = longRunningJobTimers st /\
    intervals st' = intervals st /\
    next_timer st' = next_timer st /\
    effects (trace st') =
      effects (trace st) ++ [Authenticate; Send (pull_request st subscription job_pull_options)] /\
    (forall msg, fst (pullLongRunningJob subscription opts (Failed msg) r st)
                 = Rejected (RequestError msg)).
Proof.
  intros Hno. eexists. split; [by apply pullLongRunningJob_no_message|].
  split; [reflexivity|]. split; [reflexivity|]. split; [reflexivity|]. split.
  - unfold append_trace, set_trace. cbn [trace]. by rewrite effects_app.
  - intros msg. by rewrite pullLongRunningJob_pull_rejected.
Qed.

Lemma empty_array_resolves_absent :
  exists st',
    pullLongRunningJob "jobs" {| extendBy := None; withPeriod := None |}
      (Replied (Some {| receivedMessages := Some [] |})) (Replied tt) (constructor "p" ∅)
    = (Resolved None, st') /\
    longRunningJobTimers st' = longRunningJobTimers (constructor "p" ∅) /\
    intervals st' = intervals (constructor "p" ∅) /\
    next_timer st' = next_timer (constructor "p" ∅) /\
    effects (trace st') =
      effects (trace (constructor "p" ∅)) ++
      [Authenticate; Send (pull_request (constructor "p" ∅) "jobs" job_pull_options)] /\
    (forall msg,
       fst (pullLongRunningJob "jobs" {| extendBy := None; withPeriod := None |}
              (Failed msg) (Replied tt) (constructor "p" ∅))
       = Rejected (RequestError msg)).
Proof.
  apply (no_message_resolves_absent "jobs" {| extendBy := None; withPeriod := None |}
           (Some {| receivedMessages := Some [] |}) (Replied tt) (constructor "p" ∅)).
  reflexivity.
Defined.

Lemma entries_for_lookup (h : string) (t : timer) (reg : gmap string timer) :
  reg !! h = Some t -> entries_for h reg = 1.
Proof.
  intros Ht. unfold entries_for.
  assert (filter (fun kv : string * timer => kv.1 = h) reg = {[h := t]}) as ->.
  { apply map_eq. intros k. apply option_eq. intros v.
    rewrite map_lookup_filter_Some, lookup_singleton_Some. cbn.
    split; [intros [Hk <-]|intros [<- <-]]; [|done]. split; congruence. }
  apply map_size_singleton.
Qed.

(** C3: whenever [pullLongRunningJob] returns a message, the table holds
    exactly one entry under that message's [ackId], it refers to a live timer
    renewing that handle, and a [modifyAckDeadline] request for that handle
    went out, and was answered, during the call. *)
Theorem returned_message_is_registered
    (subscription : string) (opts : job_options)
    (r_pull : reply (option pull_response)) (r_modify : reply unit)
    (st st' : state) (m : received_message) :
  pullLongRunningJob subscription opts r_pull r_modify st = (Resolved (Some m), st') ->
  entries_for (ackId m) (longRunningJobTimers st') = 1 /\
  (exists t, longRunningJobTimers st' !! ackId m = Some t /\ renews st' t (ackId m)) /\
  r_modify = Replied tt /\
  exists before,
    trace st' = trace st ++ before ++
      [Send (modifyAckDeadline_request st subscription [ackId m] (job_extendBy opts))].
Proof.
  intros Hrun.
  destruct r_pull as [msg|msg|results];
    try (rewrite pullLongRunningJob_pull_rejected in Hrun by done; discriminate Hrun).
  destruct (no_messages results) eqn:Hno.
  { rewrite pullLongRunningJob_no_message in Hrun by done. discriminate Hrun. }
  apply no_messages_false in Hno as (payload & rest & ->).
  rewrite pullLongRunningJob_message in Hrun.
  destruct r_modify as [msg|msg|[]]; cbn [settles] in Hrun; try discriminate Hrun.
  destruct (decode_data (data (message payload))) as [d|]; [|discriminate Hrun].
  injection Hrun as <- <-. cbn [ackId with_message longRunningJobTimers trace].
  assert (Hreg : <[ackId payload := next_timer st]> (longRunningJobTimers st) !! ackId payload
                 = Some (next_timer st)) by apply lookup_insert_eq.
  split; [by eapply entries_for_lookup|].
  split; [|split; [reflexivity|]].
  - exists (next_timer st). split; [exact Hreg|].
    exists (job_callback subscription opts payload). cbn [intervals].
    split; [apply lookup_insert_eq | reflexivity].
  - exists
      [Authenticate;
       Log (LogPull subscription (pull_request st subscription job_pull_options));
       Send (pull_request st subscription job_pull_options);
       Log (LogReceived subscription (Some {| receivedMessages := Some (payload :: rest) |}));
       Log (LogStarting subscription (ackId payload));
       SetInterval (next_timer st) (job_callback subscription opts payload);
       Log (LogModifyAckDeadline subscription [ackId payload] (job_extendBy opts));
       Authenticate].
    reflexivity.
Qed.

Lemma hello_is_registered :
  entries_for (ackId hello_decoded) (longRunningJobTimers job_started) = 1 /\
  (exists t, longRunningJobTimers job_started !! ackId hello_decoded = Some t /\
             renews job_started t (ackId hello_decoded)) /\
  Replied tt = Replied tt /\
  exists before,
    trace job_started = trace fresh_client ++ before ++
      [Send (modifyAckDeadline_request fresh_client "jobs" [ackId hello_decoded]
               (job_extendBy README_options))].
Proof.
  apply (returned_message_is_registered "jobs" README_options (one_message hello)
           (Replied tt) fresh_client job_started hello_decoded).
  vm_compute. reflexivity.
Defined.

Lemma sent_app tr1 tr2 : sent (tr1 ++ tr2) = sent tr1 ++ sent tr2.
Proof. apply omap_app. Qed.

(** C8: the pull of [pullLongRunningJob] goes out with
    [returnImmediately = true] and [maxMessages = 1] whenever it goes out,
    and a response with several messages is handled exactly as the response
    holding only its first one: same result, same table and timers, same
    effects; the messages after the first leave no trace but in the log
    line that prints the response. *)
Theorem only_first_message_is_processed
    (subscription : string) (opts : job_options) (r_modify : reply unit) (st : state) :
  (forall r_pull, exists reqs,
     sent (trace (snd (pullLongRunningJob subscription opts r_pull r_modify st)))
     = sent (trace st) ++ reqs /\
     Forall (fun req => forall ri mm, body_of req = PullBody ri mm -> ri = true /\ mm = 1%Z) reqs /\
     (reaches_wire r_pull = true ->
      exists more, reqs = pull_request st subscription job_pull_options :: more /\
                   body_of (pull_request st subscription job_pull_options) = PullBody true 1)) /\
  (forall first rest,
     let several := pullLongRunningJob subscription opts
                      (Replied (Some {| receivedMessages := Some (first :: rest) |})) r_modify st in
     let single := pullLongRunningJob subscription opts (one_message first) r_modify st in
     fst several = fst single /\
     longRunningJobTimers (snd several) = longRunningJobTimers (snd single) /\
     intervals (snd several) = intervals (snd single) /\
     next_timer (snd several) = next_timer (snd single) /\
     effects (trace (snd several)) = effects (trace (snd single)) /\
     Forall (fun req => extends_deadline_of req ⊆ [ackId first])
       (drop (length (sent (trace st))) (sent (trace (snd several))))).
Proof.
  split.
  - intros r_pull.
    assert (Hpull : forall ri mm,
      body_of (pull_request st subscription job_pull_options) = PullBody ri mm ->
      ri = true /\ mm = 1%Z) by (intros ri mm [= <- <-]; done).
    destruct r_pull as [msg|msg|results].
    + exists []. rewrite pullLongRunningJob_pull_rejected by done.
      cbn. rewrite sent_app. split; [reflexivity|]. split; [apply Forall_nil_2 | discriminate].
    + exists [pull_request st subscription job_pull_options].
      rewrite pullLongRunningJob_pull_rejected by done.
      cbn. rewrite sent_app. split; [reflexivity|]. split; [by apply Forall_singleton | eauto].
    + destruct (no_messages results) eqn:Hno.
      * exists [pull_request st subscription job_pull_options].
        rewrite pullLongRunningJob_no_message by done.
        cbn. rewrite sent_app. split; [reflexivity|]. split; [by apply Forall_singleton | eauto].
      * apply no_messages_false in Hno as (payload & rest & ->).
        rewrite pullLongRunningJob_message. cbn [snd trace].
        exists (pull_request st subscription job_pull_options ::
                sent (modifyAckDeadline_events st subscription [ackId payload]
                        (job_extendBy opts) r_modify)).
        rewrite !sent_app. split; [reflexivity|]. split; [|eauto].
        constructor; [exact Hpull|].
        destruct r_modify; cbn; [apply Forall_nil_2 | apply Forall_singleton..]; discriminate.
  - intros first rest several single. subst several single. unfold one_message.
    rewrite !pullLongRunningJob_message. cbn [fst snd longRunningJobTimers intervals next_timer trace].
    repeat (split; [reflexivity|]).
    split; [by rewrite !effects_app|].
    rewrite !sent_app, drop_app_length.
    destruct r_modify; cbn;
      repeat first [apply Forall_nil_2 | apply Forall_cons_2];
      first [apply list_subseteq_nil | reflexivity].
Qed.

Lemma hello_pull_request :
  exists more,
    sent (trace job_started)
    = sent (trace fresh_client) ++ pull_request fresh_client "jobs" job_pull_options :: more.
Proof.
  destruct (only_first_message_is_processed "jobs" README_options (Replied tt) fresh_client)
    as [Hpull _].
  destruct (Hpull (one_message hello)) as (reqs & Hsent & _ & Hwire).
  destruct (Hwire eq_refl) as (more & -> & _).
  exists more. exact Hsent.
Defined.

(** ** Acknowledging a long-running job *)

Lemma acknowledgeLongRunningJob_forgets subscription h r st :
  longRunningJobTimers (snd (acknowledgeLongRunningJob subscription h r st)) !! h = None.
Proof.
  destruct (longRunningJobTimers st !! h) as [t|] eqn:Hreg.
  - rewrite (acknowledgeLongRunningJob_registered _ _ _ _ _ Hreg), acknowledge_run.
    cbn. apply lookup_delete_eq.
  - by rewrite (acknowledgeLongRunningJob_unregistered _ _ _ _ Hreg).
Qed.

Lemma cleared_app tr1 tr2 : cleared (tr1 ++ tr2) = cleared tr1 ++ cleared tr2.
Proof. apply omap_app. Qed.


Lemma cleared_inherited_deregistration subscription h :
  cleared (inherited_deregistration subscription h) = [].
Proof. unfold inherited_deregistration. by destruct (inherited h). Qed.

Lemma sent_inherited_deregistration subscription h :
  sent (inherited_deregistration subscription h) = [].
Proof. unfold inherited_deregistration. by destruct (inherited h). Qed.





(** ** Renewal ticks *)

Lemma logged_app tr1 tr2 : logged (tr1 ++ tr2) = logged tr1 ++ logged tr2.
Proof. apply omap_app. Qed.

Lemma logged_modifyAckDeadline_events st subscription ackIds d r :
  logged (modifyAckDeadline_events st subscription ackIds d r)
  = [LogModifyAckDeadline subscription ackIds d].
Proof. by destruct r. Qed.

Lemma logged_tick t cb r st st' :
  intervals st !! t = Some cb ->
  tick t r st = Some st' ->
  logged (trace st') =
    logged (trace st) ++
    [LogLoop (cb_subscription cb) (cb_ackId cb);
     LogModifyAckDeadline (cb_subscription cb) [cb_ackId cb] (cb_extendBy cb)].
Proof.
  intros Hcb Htick. rewrite (tick_run _ _ _ _ Hcb) in Htick. injection Htick as <-.
  rewrite trace_left_unhandled.
  cbn [trace append_trace set_trace].
  change (Log ?l :: ?evs) with ([Log l] ++ evs).
  by rewrite !logged_app, logged_modifyAckDeadline_events.
Qed.

(** C9 (counterexample): with the job of the README running, the tick whose
    request fails hands the log sink exactly what the tick whose request
    succeeds hands it; the failure itself reaches no one. *)
Lemma renewal_failure_not_logged :
  ~ reported_to_log 1%positive (Failed "socket hang up") job_started.
Proof.
  intros (st_failed & st_ok & Hfailed & Hok & Hdiff).
  apply Hdiff.
  assert (Hcb : intervals job_started !! 1%positive
                = Some (job_callback "jobs" README_options hello)) by (vm_compute; reflexivity).
  by rewrite (logged_tick _ _ _ _ _ Hcb Hfailed), (logged_tick _ _ _ _ _ Hcb Hok).
Qed.

(** C9 (as amended): a renewal tick whose [modifyAckDeadline] fails is not
    reported to the log sink: the tick makes its two log calls before the
    request, the same whether the request then fails or succeeds, and the
    rejected promise stays unhandled.  The client itself passes the failure
    to no caller, keeps the handle's entry and clears no timer; what comes
    next is the runtime's answer to the unhandled rejection.  Where that
    keeps the process running the timers are as they were and this one can
    fire again; where it ends the process, as Node does by default since
    version 15, no timer is left and nothing runs any more. *)
Theorem renewal_failure_is_silent (t : timer) (cb : callback) (r : reply unit) (st : state) :
  intervals st !! t = Some cb ->
  exists st',
    tick t r st = Some st' /\
    logged (trace st') =
      logged (trace st) ++
      [LogLoop (cb_subscription cb) (cb_ackId cb);
       LogModifyAckDeadline (cb_subscription cb) [cb_ackId cb] (cb_extendBy cb)] /\
    ~ reported_to_log t r st /\
    unhandledRejections st' = unhandledRejections st ++ rejection r /\
    longRunningJobTimers st' = longRunningJobTimers st /\
    match settles r, unhandledRejectionPolicy st with
    | Rejected _, TerminateProcess =>
        exited st' = true /\
        intervals st' = ∅ /\
        (forall t' r', tick t' r' st' = None) /\
        (forall a, step a st' = None)
    | _, _ =>
        exited st' = exited st /\
        intervals st' = intervals st /\
        (forall r', is_Some (tick t r' st'))
    end.
Proof.
  intros Hcb. eexists. split; [by apply tick_run|].
  split; [by eapply logged_tick; [|apply tick_run]|].
  split.
  { intros (st_failed & st_ok & Hfailed & Hok & Hdiff). apply Hdiff.
    by rewrite (logged_tick _ _ _ _ _ Hcb Hfailed), (logged_tick _ _ _ _ _ Hcb Hok). }
  set (st1 := append_trace _ st).
  destruct (left_unhandled_frame r st1) as (_ & Hreg & _ & _ & _ & Hrej).
  split; [exact Hrej|]. split; [exact Hreg|].
  assert (Hkeeps : left_unhandled r st1 = st1 ->
            exited (left_unhandled r st1) = exited st /\
            intervals (left_unhandled r st1) = intervals st /\
            (forall r', is_Some (tick t r' (left_unhandled r st1)))).
  { intros ->. split; [reflexivity|]. split; [reflexivity|].
    intros r'. rewrite (tick_run t cb); [eauto | exact Hcb]. }
  unfold left_unhandled, unhandledRejection in *.
  destruct (settles r) as [[]|e]; [by destruct (unhandledRejectionPolicy st); apply Hkeeps|].
  change (unhandledRejectionPolicy (set_unhandledRejections _ st1))
    with (unhandledRejectionPolicy st) in *.
  destruct (unhandledRejectionPolicy st).
  - split; [reflexivity|]. split; [reflexivity|]. split.
    + intros t' r'. unfold tick. cbn [intervals exit]. by rewrite lookup_empty.
    + intros a. reflexivity.
  - split; [reflexivity|]. split; [reflexivity|].
    intros r'. rewrite (tick_run t cb); [eauto | exact Hcb].
Qed.

Lemma failed_tick_of_hello :
  exists st',
    tick 1%positive (Failed "socket hang up") job_started = Some st' /\
    unhandledRejections st' = [RequestError "socket hang up"] /\
    longRunningJobTimers st' = longRunningJobTimers job_started /\
    exited st' = true /\
    intervals st' = ∅.
Proof.
  destruct (renewal_failure_is_silent 1%positive (job_callback "jobs" README_options hello)
              (Failed "socket hang up") job_started)
    as (st' & Htick & _ & _ & Hrej & Hreg & Hexit & Hiv & _).
  { vm_compute. reflexivity. }
  exists st'. split; [exact Htick|]. split; [exact Hrej|]. split; [exact Hreg|].
  split; [exact Hexit | exact Hiv].
Defined.

(** Under a runtime that keeps the process running, the timer of the
    README's job is alive after its failed renewal. *)
Example failed_tick_under_old_runtime :
  exists st',
    tick 1%positive (Failed "socket hang up")
      (set_unhandledRejectionPolicy KeepRunning job_started) = Some st' /\
    exited st' = false /\
    renews st' 1%positive "A1".
Proof.
  eexists. split; [vm_compute; reflexivity|]. split; [reflexivity|].
  eexists. split; vm_compute; reflexivity.
Qed.

(** ** Publishing *)

Lemma publish_run topic ms objs r st :
  reaches_wire r = true ->
  Forall (has_payload (heap st)) ms ->
  Forall2 (fun m o => encode_all ms (heap st) !! m = Some o) ms objs ->
  publish topic ms r st =
  (settles r,
   append_trace [Authenticate; Send (publish_request st topic objs)]
     (set_heap (encode_all ms) st)).
Proof.
  intros Hr Hms Hobjs.
  unfold publish, formatTopic, gets, bind at 1 2, ret at 1.
  unfold bind at 1.
  assert (addAuthentication r st = (Resolved tt, append_trace [Authenticate] st)) as ->
    by (destruct r; [discriminate Hr|reflexivity..]).
  unfold bind at 1. rewrite mapM_encode_message_run by exact Hms.
  unfold bind at 1. rewrite (mapM_deref_run ms _ objs) by exact Hobjs.
  destruct r; [discriminate Hr|..]; run_client; same_state.
Qed.

(** C10: when [publish] sends its request, every message object of the
    caller's array has had its [data] replaced, in the caller's own object,
    by the base64 text of what it held, once for each time the object occurs
    in the array; [attributes] and [messageId] are untouched, objects outside
    the array are untouched, and the request carries the objects as they
    are after the replacement.  This holds whether the request then succeeds
    or fails. *)
Theorem publish_encodes_in_place
    (topic : string) (messages : list loc) (r : reply (list string)) (st : state) :
  reaches_wire r = true ->
  Forall (has_payload (heap st)) messages ->
  exists st' carried,
    publish topic messages r st = (settles r, st') /\
    (forall m o, heap st !! m = Some o ->
       heap st' !! m = Some (Nat.iter (count_occ Pos.eq_dec messages m) encoded o)) /\
    (forall m o, heap st !! m = Some o -> count_occ Pos.eq_dec messages m = 1 ->
       exists d, encode_data (data o) = Some d /\ heap st' !! m = Some (with_data o d)) /\
    (forall m o o', heap st !! m = Some o -> heap st' !! m = Some o' ->
       attributes o' = attributes o /\ messageId o' = messageId o) /\
    (forall m, m ∉ messages -> heap st' !! m = heap st !! m) /\
    trace st' = trace st ++ [Authenticate; Send (publish_request st topic carried)] /\
    Forall2 (fun m o => heap st' !! m = Some o) messages carried.
Proof.
  intros Hr Hms.
  destruct (allocated_objects (encode_all messages (heap st)) messages) as [objs Hobjs].
  { eapply Forall_impl; [exact Hms|]. intros m (o & Ho & _).
    rewrite lookup_encode_all, Ho. by eexists. }
  exists (append_trace [Authenticate; Send (publish_request st topic objs)]
            (set_heap (encode_all messages) st)), objs.
  split; [by apply publish_run|]. cbn [heap trace append_trace set_trace set_heap].
  assert (Hlook : forall m o, heap st !! m = Some o ->
    encode_all messages (heap st) !! m
    = Some (Nat.iter (count_occ Pos.eq_dec messages m) encoded o)).
  { intros m o Ho. by rewrite lookup_encode_all, Ho. }
  split; [exact Hlook|]. split; [|split; [|split; [|split; [reflexivity | exact Hobjs]]]].
  - intros m o Ho Hone. rewrite (Hlook _ _ Ho), Hone. cbn [Nat.iter nat_rect].
    assert (has_payload (heap st) m) as (o' & Ho' & Hd).
    { rewrite Forall_forall in Hms. apply Hms.
      apply list_elem_of_In, (count_occ_In Pos.eq_dec). lia. }
    assert (o' = o) as -> by congruence.
    unfold encoded, encode_data. destruct (data o); [done|eauto..].
  - intros m o o' Ho Ho'. rewrite (Hlook _ _ Ho) in Ho'. injection Ho' as <-.
    apply iter_encoded_frame.
  - intros m Hm. rewrite lookup_encode_all.
    rewrite (proj1 (count_occ_not_In Pos.eq_dec messages m)).
    + by destruct (heap st !! m).
    + by rewrite <- list_elem_of_In.
Qed.

Lemma aliased_message_encoded_twice :
  exists st',
    snd (publish "greetings" [1; 2; 1]%positive (Replied ["7"; "8"; "9"])
           (constructor "p" caller_heap)) = st' /\
    (data <$> heap st' !! 1%positive) = Some (Buffer.Str (Buffer.js "YUdWc2JHOD0=")) /\
    (data <$> heap st' !! 2%positive) = Some (Buffer.Str (Buffer.js "/wA=")).
Proof.
  destruct (publish_encodes_in_place "greetings" [1; 2; 1]%positive
              (Replied ["7"; "8"; "9"]) (constructor "p" caller_heap))
    as (st' & carried & Hrun & Hheap & _).
  { reflexivity. }
  { repeat constructor; eexists; (split; [vm_compute; reflexivity | discriminate]). }
  exists st'. split; [by rewrite Hrun|].
  split.
  - erewrite Hheap by (vm_compute; reflexivity). vm_compute. reflexivity.
  - erewrite Hheap by (vm_compute; reflexivity). vm_compute. reflexivity.
Defined.

(** ** Timers and the table *)


Lemma cleared_modifyAckDeadline_events st subscription ackIds d r :
  cleared (modifyAckDeadline_events st subscription ackIds d r) = [].
Proof. by destruct r. Qed.

(** Registering never clears a timer and never rejects because the handle is
    already in the table: the timer the table held for the handle stays
    alive while the table moves on to the new one. *)
Lemma registration_keeps_old_timer subscription opts payload rest r st t cb :
  longRunningJobTimers st !! ackId payload = Some t ->
  intervals st !! t = Some cb ->
  t <> next_timer st ->
  let st' := snd (pullLongRunningJob subscription opts
                    (Replied (Some {| receivedMessages := Some (payload :: rest) |})) r st) in
  intervals st' !! t = Some cb /\
  longRunningJobTimers st' !! ackId payload = Some (next_timer st) /\
  cleared (trace st') = cleared (trace st).
Proof.
  intros Hreg Hcb Hfresh st'. subst st'. rewrite pullLongRunningJob_message.
  cbn [snd intervals longRunningJobTimers trace].
  split; [by rewrite lookup_insert_ne|]. split; [apply lookup_insert_eq|].
  rewrite !cleared_app, cleared_modifyAckDeadline_events. cbn. by rewrite app_nil_r.
Qed.

(** [acknowledgeLongRunningJob] on a registered handle: the timer of the
    table is stopped and the entry dropped in the state from which
    [acknowledge] starts, and that timer cannot fire afterwards. *)
Lemma acknowledge_after_deregistration subscription h t r st :
  longRunningJobTimers st !! h = Some t ->
  let before := deregistered subscription h t st in
  let st' := snd (acknowledgeLongRunningJob subscription h r st) in
  acknowledgeLongRunningJob subscription h r st = acknowledge subscription [h] r before /\
  trace before = trace st ++ [Log (LogStopping subscription h); ClearInterval t] /\
  longRunningJobTimers before !! h = None /\
  intervals before !! t = None /\
  trace st' = trace before ++ acknowledge_events st subscription [h] r /\
  intervals st' = intervals before /\
  forall r', tick t r' st' = None.
Proof.
  intros Hreg before st'. subst before st'.
  rewrite (acknowledgeLongRunningJob_registered _ _ _ _ _ Hreg), acknowledge_run.
  cbn [snd]. split; [reflexivity|]. split; [reflexivity|].
  split; [apply lookup_delete_eq|]. split; [apply lookup_delete_eq|].
  split; [reflexivity|]. split; [reflexivity|].
  intros r'. unfold tick. cbn [intervals append_trace set_trace deregistered
    set_longRunningJobTimers set_intervals]. by rewrite lookup_delete_eq.
Qed.

(** Where every live timer is the table's entry of its handle, no timer
    renews a handle once it is acknowledged. *)
Lemma acknowledge_stops_tracked_renewals subscription h r st :
  tracked st ->
  forall t, ~ renews (snd (acknowledgeLongRunningJob subscription h r st)) t h.
Proof.
  intros Htracked t (cb & Hcb & Hh).
  destruct (longRunningJobTimers st !! h) as [t0|] eqn:Hreg.
  - rewrite (acknowledgeLongRunningJob_registered _ _ _ _ _ Hreg), acknowledge_run in Hcb.
    cbn in Hcb. apply lookup_delete_Some in Hcb as [Hne Hcb].
    apply Htracked in Hcb. congruence.
  - rewrite (acknowledgeLongRunningJob_unregistered _ _ _ _ Hreg) in Hcb.
    cbn in Hcb. apply Htracked in Hcb. congruence.
Qed.

Lemma tracked_constructor project h : tracked (constructor project h).
Proof. intros t cb Hcb. cbn in Hcb. by rewrite lookup_empty in Hcb. Qed.

Lemma tracked_acknowledge subscription h r st :
  tracked st -> tracked (snd (acknowledgeLongRunningJob subscription h r st)).
Proof.
  intros Htracked t cb.
  destruct (longRunningJobTimers st !! h) as [t0|] eqn:Hreg.
  - rewrite (acknowledgeLongRunningJob_registered _ _ _ _ _ Hreg), acknowledge_run.
    cbn. intros [Hne Hcb]%lookup_delete_Some.
    pose proof (Htracked _ _ Hcb) as Hcb'.
    rewrite lookup_delete_ne; [done | congruence].
  - rewrite (acknowledgeLongRunningJob_unregistered _ _ _ _ Hreg).
    cbn. apply Htracked.
Qed.

Lemma tracked_tick t r st st' : tracked st -> tick t r st = Some st' -> tracked st'.
Proof.
  intros Htracked Htick.
  destruct (tick_timers _ _ _ _ Htick) as (Hreg & _ & [[Hiv _]|[Hiv _]]);
    intros t' cb'; rewrite Hiv, ?Hreg; [apply Htracked | by rewrite lookup_empty].
Qed.

Lemma tracked_pull subscription opts r_pull r_modify st :
  tracked st ->
  ~ delivers_registered (PullLongRunningJob subscription opts r_pull r_modify) st ->
  tracked (snd (pullLongRunningJob subscription opts r_pull r_modify st)).
Proof.
  intros Htracked Hnew.
  destruct r_pull as [msg|msg|results];
    try (rewrite pullLongRunningJob_pull_rejected by done; exact Htracked).
  destruct (no_messages results) eqn:Hno.
  { rewrite pullLongRunningJob_no_message by done. exact Htracked. }
  apply no_messages_false in Hno as (payload & rest & ->).
  cbn in Hnew. rewrite pullLongRunningJob_message. intros t cb. cbn.
  rewrite lookup_insert. destruct (decide (next_timer st = t)) as [<-|Hne].
  - intros [= <-]. cbn. apply lookup_insert_eq.
  - intros Hcb. pose proof (Htracked _ _ Hcb) as Hreg.
    rewrite lookup_insert_ne; [done|]. intros Heq. apply Hnew. rewrite Heq. eauto.
Qed.

Lemma same_timers_refl st : same_timers st st.
Proof. done. Qed.

Lemma same_timers_trans st1 st2 st3 :
  same_timers st1 st2 -> same_timers st2 st3 -> same_timers st1 st3.
Proof. unfold same_timers. intros (-> & -> & ->) (-> & -> & ->). done. Qed.

Lemma encode_message_same_timers m st : same_timers st (snd (encode_message m st)).
Proof.
  unfold encode_message, deref, gets, bind at 1 2.
  destruct (heap st !! m) as [o|]; [|done].
  unfold ret at 1. destruct (encode_data (data o)); done.
Qed.

Lemma deref_same_timers m st : same_timers st (snd (deref m st)).
Proof. unfold deref, gets, bind. by destruct (heap st !! m). Qed.

Lemma mapM_same_timers {A B} (f : A -> M B) (l : list A) :
  (forall a st, same_timers st (snd (f a st))) ->
  forall st, same_timers st (snd (mapM f l st)).
Proof.
  intros Hf. induction l as [|a l IH]; intros st; [done|].
  cbn [mapM]. unfold bind at 1.
  pose proof (Hf a st) as Ha. destruct (f a st) as [[b|e] st1]; [|exact Ha].
  unfold bind at 1.
  pose proof (IH st1) as Hl. destruct (mapM f l st1) as [[bs|e] st2];
    exact (same_timers_trans _ _ _ Ha Hl).
Qed.

Lemma publish_same_timers topic ms r st : same_timers st (snd (publish topic ms r st)).
Proof.
  unfold publish, formatTopic, gets, bind at 1 2, ret at 1. unfold bind at 1.
  destruct r as [msg|msg|ids]; [done|..].
  all: change (addAuthentication _ st) with (Resolved tt, append_trace [Authenticate] st).
  all: unfold bind at 1;
    pose proof (mapM_same_timers encode_message ms encode_message_same_timers
                  (append_trace [Authenticate] st)) as H1;
    destruct (mapM encode_message ms _) as [[ms'|e] st1]; [|exact H1];
    unfold bind at 1;
    pose proof (mapM_same_timers deref ms' deref_same_timers st1) as H2;
    destruct (mapM deref ms' st1) as [[objs|e] st2];
    exact (same_timers_trans _ _ _ H1 H2).
Qed.

Lemma tracked_same_timers st st' : tracked st -> same_timers st st' -> tracked st'.
Proof. unfold tracked. intros H (-> & -> & _). exact H. Qed.

Lemma step_tracked a st st' :
  tracked st -> ~ delivers_registered a st -> step a st = Some st' -> tracked st'.
Proof.
  intros Htracked Hnew Hstep.
  destruct a as [subscription opts r_pull r_modify|subscription h r|topic ms r|t0 r];
    apply step_perform in Hstep; cbn [perform] in Hstep.
  - injection Hstep as <-. by apply tracked_pull.
  - injection Hstep as <-. by apply tracked_acknowledge.
  - injection Hstep as <-. eapply tracked_same_timers; [exact Htracked|].
    apply publish_same_timers.
  - by eapply tracked_tick.
Qed.

Lemma run_tracked acts : forall st st',
  tracked st -> delivers_only_new acts st -> run acts st = Some st' -> tracked st'.
Proof.
  induction acts as [|a acts IH]; intros st st' Htracked Hnew Hrun.
  - by injection Hrun as <-.
  - cbn [run] in Hrun. destruct Hnew as [Ha Hnew].
    destruct (step a st) as [st1|] eqn:Hstep; [|discriminate Hrun].
    eapply IH; [|exact Hnew|exact Hrun]. by eapply step_tracked.
Qed.

(** X14: in an execution where no handle is delivered while it is in the table,
    acknowledging a handle leaves no timer that renews it. *)
Lemma acknowledge_ends_renewals project h0 acts st subscription h r :
  delivers_only_new acts (constructor project h0) ->
  run acts (constructor project h0) = Some st ->
  forall t, ~ renews (snd (acknowledgeLongRunningJob subscription h r st)) t h.
Proof.
  intros Hnew Hrun. apply acknowledge_stops_tracked_renewals.
  eapply run_tracked; [apply tracked_constructor | exact Hnew | exact Hrun].
Qed.

Lemma fresh_timers_constructor project h : fresh_timers (constructor project h).
Proof. split; intros ? ? H; cbn in H; by rewrite lookup_empty in H. Qed.

Lemma fresh_timers_same_timers st st' :
  fresh_timers st -> same_timers st st' -> fresh_timers st'.
Proof. unfold fresh_timers. intros H (-> & -> & ->). exact H. Qed.

Lemma stopped_same_timers st st' t : stopped st t -> same_timers st st' -> stopped st' t.
Proof. unfold stopped. intros H (_ & -> & ->). exact H. Qed.

Lemma acknowledge_same_supply subscription h r st :
  next_timer (snd (acknowledgeLongRunningJob subscription h r st)) = next_timer st /\
  (forall t, intervals st !! t = None ->
             intervals (snd (acknowledgeLongRunningJob subscription h r st)) !! t = None) /\
  (forall t cb, intervals (snd (acknowledgeLongRunningJob subscription h r st)) !! t = Some cb ->
                intervals st !! t = Some cb) /\
  (forall h' t, longRunningJobTimers (snd (acknowledgeLongRunningJob subscription h r st)) !! h'
                = Some t -> longRunningJobTimers st !! h' = Some t).
Proof.
  destruct (longRunningJobTimers st !! h) as [t0|] eqn:Hreg.
  - rewrite (acknowledgeLongRunningJob_registered _ _ _ _ _ Hreg), acknowledge_run. cbn.
    split; [reflexivity|]. split; [|split].
    + intros t Ht. rewrite lookup_delete_None. by right.
    + by intros t cb [_ Hcb]%lookup_delete_Some.
    + by intros h' t [_ Ht]%lookup_delete_Some.
  - rewrite (acknowledgeLongRunningJob_unregistered _ _ _ _ Hreg). cbn.
    done.
Qed.

Lemma pull_supply subscription opts r_pull r_modify st :
  let st' := snd (pullLongRunningJob subscription opts r_pull r_modify st) in
  same_timers st st' \/
  (exists h cb,
     longRunningJobTimers st' = <[h := next_timer st]> (longRunningJobTimers st) /\
     intervals st' = <[next_timer st := cb]> (intervals st) /\
     next_timer st' = Pos.succ (next_timer st)).
Proof.
  destruct r_pull as [msg|msg|results];
    try (rewrite pullLongRunningJob_pull_rejected by done; by left).
  destruct (no_messages results) eqn:Hno.
  { rewrite pullLongRunningJob_no_message by done. by left. }
  apply no_messages_false in Hno as (payload & rest & ->).
  rewrite pullLongRunningJob_message. right. cbn. eauto.
Qed.

Lemma step_fresh_timers a st st' :
  fresh_timers st -> step a st = Some st' -> fresh_timers st'.
Proof.
  intros Hfresh Hstep.
  destruct a as [subscription opts r_pull r_modify|subscription h r|topic ms r|t0 r];
    apply step_perform in Hstep; cbn [perform] in Hstep.
  - injection Hstep as <-.
    destruct (pull_supply subscription opts r_pull r_modify st)
      as [Hsame|(h1 & cb & Hreg & Hiv & Hnext)];
      [by eapply fresh_timers_same_timers|].
    destruct Hfresh as [Hiv' Hreg']. split.
    + intros t cb'. rewrite Hiv, Hnext, lookup_insert.
      destruct (decide (next_timer st = t)) as [<-|_]; [lia|].
      intros Ht%Hiv'. lia.
    + intros h' t. rewrite Hreg, Hnext, lookup_insert.
      destruct (decide (h1 = h')) as [_|_]; [intros [= <-]; lia|].
      intros Ht%Hreg'. lia.
  - injection Hstep as <-.
    destruct (acknowledge_same_supply subscription h r st) as (Hnext & _ & Hiv & Hreg).
    destruct Hfresh as [Hiv' Hreg']. split.
    + intros t cb Ht%Hiv. rewrite Hnext. by eapply Hiv'.
    + intros h' t Ht%Hreg. rewrite Hnext. by eapply Hreg'.
  - injection Hstep as <-. eapply fresh_timers_same_timers; [exact Hfresh|].
    apply publish_same_timers.
  - destruct (tick_timers _ _ _ _ Hstep) as (Hreg & Hnext & Hiv).
    destruct Hfresh as [Hiv' Hreg']. split.
    + intros t cb. rewrite Hnext.
      destruct Hiv as [[-> _]|[-> _]]; [apply Hiv' | by rewrite lookup_empty].
    + intros h t. rewrite Hreg, Hnext. apply Hreg'.
Qed.

(** A stopped timer stays stopped: the timers started later are new ones. *)
Lemma step_stopped a st st' t : stopped st t -> step a st = Some st' -> stopped st' t.
Proof.
  intros [Hdead Hold] Hstep.
  destruct a as [subscription opts r_pull r_modify|subscription h r|topic ms r|t0 r];
    apply step_perform in Hstep; cbn [perform] in Hstep.
  - injection Hstep as <-.
    destruct (pull_supply subscription opts r_pull r_modify st)
      as [Hsame|(h1 & cb & Hreg & Hiv & Hnext)];
      [by eapply stopped_same_timers|].
    split; [|rewrite Hnext; lia]. rewrite Hiv, lookup_insert_ne; [done | lia].
  - injection Hstep as <-.
    destruct (acknowledge_same_supply subscription h r st) as (Hnext & Hiv & _ & _).
    split; [by apply Hiv | by rewrite Hnext].
  - injection Hstep as <-. eapply stopped_same_timers; [done|]. apply publish_same_timers.
  - destruct (tick_timers _ _ _ _ Hstep) as (_ & Hnext & Hiv).
    split; [|by rewrite Hnext].
    destruct Hiv as [[-> _]|[-> _]]; [exact Hdead | apply lookup_empty].
Qed.

Lemma run_fresh_timers acts : forall st st',
  fresh_timers st -> run acts st = Some st' -> fresh_timers st'.
Proof.
  induction acts as [|a acts IH]; intros st st' Hfresh Hrun.
  - by injection Hrun as <-.
  - cbn [run] in Hrun. destruct (step a st) as [st1|] eqn:Hstep; [|discriminate Hrun].
    eapply IH; [|exact Hrun]. by eapply step_fresh_timers.
Qed.

Lemma run_stopped acts : forall st st' t,
  stopped st t -> run acts st = Some st' -> stopped st' t.
Proof.
  induction acts as [|a acts IH]; intros st st' t Hdead Hrun.
  - by injection Hrun as <-.
  - cbn [run] in Hrun. destruct (step a st) as [st1|] eqn:Hstep; [|discriminate Hrun].
    eapply IH; [|exact Hrun]. by eapply step_stopped.
Qed.

(** X13: in every execution of a client, once [acknowledgeLongRunningJob] has run
    on a handle whose table entry was timer [t], that timer never fires
    again, whatever is called afterwards. *)
Lemma acknowledged_timer_never_fires project h0 before after subscription h t r st st' :
  run before (constructor project h0) = Some st ->
  longRunningJobTimers st !! h = Some t ->
  run after (snd (acknowledgeLongRunningJob subscription h r st)) = Some st' ->
  forall r', tick t r' st' = None.
Proof.
  intros Hbefore Hreg Hafter r'.
  assert (Hfresh : fresh_timers st)
    by (eapply run_fresh_timers; [apply fresh_timers_constructor | exact Hbefore]).
  assert (Hstopped : stopped (snd (acknowledgeLongRunningJob subscription h r st)) t).
  { destruct (acknowledge_after_deregistration subscription h t r st Hreg)
      as (_ & _ & _ & Hdead & _ & Hiv & _).
    split; [by rewrite Hiv|].
    rewrite (proj1 (acknowledge_same_supply subscription h r st)).
    by eapply (proj2 Hfresh). }
  destruct (run_stopped _ _ _ _ Hstopped Hafter) as [Hdead _].
  unfold tick. by rewrite Hdead.
Qed.

(** C1 (the code at the failing input): handle A1 is delivered again while
    its job is running.  The second call resolves with the message, it is
    not rejected; the table now holds timer 2 under A1; no timer was
    cleared; and timer 1 is still alive, still renewing A1, with no entry of
    the table referring to it. *)
Theorem duplicate_registration_leaks_timer :
  longRunningJobTimers job_started !! "A1" = Some 1%positive /\
  fst (pullLongRunningJob "jobs" README_options (one_message hello) (Replied tt) job_started)
  = Resolved (Some hello_decoded) /\
  longRunningJobTimers job_started_twice !! "A1" = Some 2%positive /\
  cleared (trace job_started_twice) = [] /\
  renews job_started_twice 1%positive "A1" /\
  leaked job_started_twice 1%positive.
Proof.
  split; [by vm_compute|]. split; [by vm_compute|]. split; [by vm_compute|].
  split; [by vm_compute|]. split.
  - exists (job_callback "jobs" README_options hello). split; by vm_compute.
  - split; [eexists; vm_compute; reflexivity|]. intros h.
    unfold job_started_twice, one_message. rewrite pullLongRunningJob_message.
    cbn [snd longRunningJobTimers]. rewrite lookup_insert.
    destruct (decide (ackId hello = h)) as [_|Hne]; [by vm_compute|].
    unfold job_started, one_message. rewrite pullLongRunningJob_message.
    cbn [snd longRunningJobTimers]. rewrite lookup_insert_ne by exact Hne.
    unfold fresh_client, constructor. cbn [longRunningJobTimers].
    by rewrite lookup_empty.
Qed.

(** C5 (the code at the failing input): after the duplicate delivery of
    A1, [acknowledgeLongRunningJob] finds A1 registered, clears timer 2,
    drops the entry and sends the acknowledgement; timer 1 still renews A1,
    and its next tick sends a [modifyAckDeadline] for A1 after the
    acknowledgement has gone out. *)
Theorem leaked_timer_renews_after_acknowledge :
  longRunningJobTimers job_started_twice !! "A1" = Some 2%positive /\
  fst (acknowledgeLongRunningJob "jobs" "A1" (Replied tt) job_started_twice) = Resolved tt /\
  cleared (trace acknowledged_after_duplicate) = [2%positive] /\
  longRunningJobTimers acknowledged_after_duplicate !! "A1" = None /\
  renews acknowledged_after_duplicate 1%positive "A1" /\
  last (sent (trace acknowledged_after_duplicate))
  = Some (acknowledge_request fresh_client "jobs" ["A1"]) /\
  exists st',
    tick 1%positive (Replied tt) acknowledged_after_duplicate = Some st' /\
    sent (trace st') =
      sent (trace acknowledged_after_duplicate) ++
      [modifyAckDeadline_request fresh_client "jobs" ["A1"] 15000].
Proof.
  split; [by vm_compute|]. split; [by vm_compute|]. split; [by vm_compute|].
  split; [by vm_compute|]. split.
  - exists (job_callback "jobs" README_options hello). split; by vm_compute.
  - split; [by vm_compute|]. eexists. split; [by vm_compute|]. by vm_compute.
Qed.

(** ** The scenario of the specification, run on the model *)

Example utf8_e_acute : Buffer.utf8Write [233%N] = [0xC3; 0xA9]%N.
Proof. reflexivity. Qed.

Example base64_hello : Buffer.base64Slice (Buffer.js "hello") = Buffer.js "aGVsbG8=".
Proof. reflexivity. Qed.

Example unbase64_hello : Buffer.base64Write (Buffer.js "aGVsbG8=") = Buffer.js "hello".
Proof. reflexivity. Qed.

(** Start the job, let ten seconds pass, acknowledge: one synchronous
    extension by 15 s, one renewal, one acknowledgement, and no timer left. *)
Example README_scenario :
  exists st,
    run [PullLongRunningJob "jobs" README_options (one_message hello) (Replied tt);
         Tick 1%positive (Replied tt);
         AcknowledgeLongRunningJob "jobs" "A1" (Replied tt)] fresh_client = Some st /\
    sent (trace st) =
      [pull_request fresh_client "jobs" job_pull_options;
       modifyAckDeadline_request fresh_client "jobs" ["A1"] 15000;
       modifyAckDeadline_request fresh_client "jobs" ["A1"] 15000;
       acknowledge_request fresh_client "jobs" ["A1"]] /\
    cleared (trace st) = [1%positive] /\
    tick 1%positive (Replied tt) st = None.
Proof. eexists. split; [by vm_compute|]. split; [by vm_compute|]. split; by vm_compute. Qed.

(** ** Beyond the long-running-job lifecycle: the manual calls *)

Lemma same_timers_append_trace evs st : same_timers st (append_trace evs st).
Proof. done. Qed.

(** X1: the manual calls [pull], [modifyAckDeadline] and [acknowledge] leave
    the table and the timers alone.  In particular a manual [acknowledge] of
    a handle whose job is running does not stop the renewals: its timer is
    still alive and fires again. *)
Theorem manual_calls_leave_jobs_alone
    (subscription : string) (ackIds : list string) (d : Z) (opts : pull_options)
    (r_pull : reply (option pull_response)) (r : reply unit) (st : state) :
  same_timers st (snd (pull subscription opts r_pull st)) /\
  same_timers st (snd (modifyAckDeadline subscription ackIds d r st)) /\
  same_timers st (snd (acknowledge subscription ackIds r st)) /\
  forall t h, renews st t h -> h ∈ ackIds ->
    renews (snd (acknowledge subscription ackIds r st)) t h /\
    forall r', is_Some (tick t r' (snd (acknowledge subscription ackIds r st))).
Proof.
  rewrite pull_run, modifyAckDeadline_run, acknowledge_run. cbn [snd].
  repeat (split; [apply same_timers_append_trace|]).
  intros t h (cb & Hcb & Hh) _. split; [by exists cb|].
  intros r'. rewrite (tick_run t cb); [eauto | exact Hcb].
Qed.

Lemma manual_acknowledge_of_hello :
  renews (snd (acknowledge "jobs" ["A1"] (Replied tt) job_started)) 1%positive "A1" /\
  forall r', is_Some (tick 1%positive r' (snd (acknowledge "jobs" ["A1"] (Replied tt) job_started))).
Proof.
  destruct (manual_calls_leave_jobs_alone "jobs" ["A1"] 0
              {| returnImmediately := None; maxMessages := None |}
              (Replied None) (Replied tt) job_started) as (_ & _ & _ & H).
  apply (H 1%positive "A1").
  - exists (job_callback "jobs" README_options hello). split; vm_compute; reflexivity.
  - apply list_elem_of_In. simpl. left. reflexivity.
Defined.

(** ** Missing credentials *)

(** X2: when the default credentials cannot be obtained, no method sends a
    request and each rejects with the authentication error.  [pull],
    [modifyAckDeadline], [acknowledge], [publish] and [pullLongRunningJob]
    then leave the client as it was ([publish] has not touched the caller's
    messages, [pullLongRunningJob] has started no timer);
    [acknowledgeLongRunningJob] has all the same dropped the handle. *)
Theorem no_credentials_nothing_sent (msg : string) (st : state) :
  (forall subscription opts,
     let res := pull subscription opts (NoCredentials msg) st in
     fst res = Rejected (AuthError msg) /\ sent (trace (snd res)) = sent (trace st) /\
     same_but_trace st (snd res)) /\
  (forall subscription ackIds d,
     let res := modifyAckDeadline subscription ackIds d (NoCredentials msg) st in
     fst res = Rejected (AuthError msg) /\ sent (trace (snd res)) = sent (trace st) /\
     same_but_trace st (snd res)) /\
  (forall subscription ackIds,
     let res := acknowledge subscription ackIds (NoCredentials msg) st in
     fst res = Rejected (AuthError msg) /\ sent (trace (snd res)) = sent (trace st) /\
     same_but_trace st (snd res)) /\
  (forall topic messages,
     let res := publish topic messages (NoCredentials msg) st in
     fst res = Rejected (AuthError msg) /\ sent (trace (snd res)) = sent (trace st) /\
     same_but_trace st (snd res)) /\
  (forall subscription opts r_modify,
     let res := pullLongRunningJob subscription opts (NoCredentials msg) r_modify st in
     fst res = Rejected (AuthError msg) /\ sent (trace (snd res)) = sent (trace st) /\
     same_but_trace st (snd res)) /\
  (forall subscription h,
     let res := acknowledgeLongRunningJob subscription h (NoCredentials msg) st in
     fst res = Rejected (AuthError msg) /\ sent (trace (snd res)) = sent (trace st) /\
     longRunningJobTimers (snd res) !! h = None).
Proof.
  assert (Hsent : forall evs, sent evs = [] -> sent (trace st ++ evs) = sent (trace st))
    by (intros evs Hevs; by rewrite sent_app, Hevs, app_nil_r).
  assert (Hsame : forall evs, same_but_trace st (append_trace evs st)) by done.
  split; [|split; [|split; [|split; [|split]]]].
  - intros subscription opts res. subst res. rewrite pull_run.
    split; [reflexivity|]. split; [by apply Hsent | apply Hsame].
  - intros subscription ackIds d res. subst res. rewrite modifyAckDeadline_run.
    split; [reflexivity|]. split; [by apply Hsent | apply Hsame].
  - intros subscription ackIds res. subst res. rewrite acknowledge_run.
    split; [reflexivity|]. split; [by apply Hsent | apply Hsame].
  - intros topic messages res. subst res.
    change (publish topic messages (NoCredentials msg) st)
      with (@Rejected (list string) (AuthError msg), append_trace [Authenticate] st).
    split; [reflexivity|]. split; [by apply Hsent | apply Hsame].
  - intros subscription opts r_modify res. subst res.
    rewrite pullLongRunningJob_pull_rejected by done.
    split; [reflexivity|]. split; [by apply Hsent | apply Hsame].
  - intros subscription h res. subst res.
    split; [|split; [|apply acknowledgeLongRunningJob_forgets]].
    + destruct (longRunningJobTimers st !! h) as [t|] eqn:Hreg.
      * by rewrite (acknowledgeLongRunningJob_registered _ _ _ _ _ Hreg), acknowledge_run.
      * by rewrite (acknowledgeLongRunningJob_unregistered _ _ _ _ Hreg).
    + destruct (longRunningJobTimers st !! h) as [t|] eqn:Hreg.
      * rewrite (acknowledgeLongRunningJob_registered _ _ _ _ _ Hreg), acknowledge_run.
        cbn [snd trace append_trace set_trace deregistered set_longRunningJobTimers
             set_intervals].
        rewrite <- app_assoc. by apply Hsent.
      * rewrite (acknowledgeLongRunningJob_unregistered _ _ _ _ Hreg).
        cbn [snd trace append_trace set_trace]. apply Hsent.
        by rewrite sent_app, sent_inherited_deregistration.
Qed.

(** ** A received message whose handling fails *)

(** X3: as soon as the pull has delivered a message its timer is started
    and entered in the table, and nothing in [pullLongRunningJob] clears it
    again: when the first [modifyAckDeadline] fails, or when the message has
    no [data] to decode, the promise rejects and the timer keeps running
    under the handle. *)
Theorem received_message_stays_registered
    (subscription : string) (opts : job_options) (payload : received_message)
    (rest : list received_message) (r : reply unit) (st : state) :
  let res := pullLongRunningJob subscription opts
               (Replied (Some {| receivedMessages := Some (payload :: rest) |})) r st in
  longRunningJobTimers (snd res) !! ackId payload = Some (next_timer st) /\
  renews (snd res) (next_timer st) (ackId payload) /\
  cleared (trace (snd res)) = cleared (trace st) /\
  (forall e, settles r = Rejected e -> fst res = Rejected e) /\
  (r = Replied tt -> data (message payload) = Buffer.Undefined ->
   fst res = Rejected TypeError).
Proof.
  intros res. subst res. rewrite pullLongRunningJob_message.
  cbn [fst snd longRunningJobTimers intervals trace].
  split; [apply lookup_insert_eq|]. split.
  { exists (job_callback subscription opts payload). split; [apply lookup_insert_eq|done]. }
  split.
  { rewrite !cleared_app, cleared_modifyAckDeadline_events. cbn. by rewrite app_nil_r. }
  split.
  - intros e He. by rewrite He.
  - intros -> Hdata. cbn [settles]. by rewrite Hdata.
Qed.

Lemma attributes_only_message_rejects :
  fst (pullLongRunningJob "jobs" README_options (one_message attributes_only) (Replied tt)
         fresh_client) = Rejected TypeError.
Proof.
  destruct (received_message_stays_registered "jobs" README_options attributes_only []
              (Replied tt) fresh_client) as (_ & _ & _ & _ & H).
  apply H; reflexivity.
Defined.

(** X4: a message returned by [pullLongRunningJob] is the first message of
    the response with its [data] replaced: [ackId], [attributes] and
    [messageId] are as received, and [data] is a string of 7-bit characters
    whatever the service sent. *)
Theorem returned_message_is_first_decoded
    (subscription : string) (opts : job_options)
    (r_pull : reply (option pull_response)) (r_modify : reply unit)
    (st : state) (m : received_message) :
  fst (pullLongRunningJob subscription opts r_pull r_modify st) = Resolved (Some m) ->
  exists first rest s,
    r_pull = Replied (Some {| receivedMessages := Some (first :: rest) |}) /\
    ackId m = ackId first /\
    attributes (message m) = attributes (message first) /\
    messageId (message m) = messageId (message first) /\
    data (message m) = Buffer.Str s /\
    Forall Buffer.is_ascii s.
Proof.
  intros Hrun.
  destruct r_pull as [msg|msg|results];
    try (rewrite pullLongRunningJob_pull_rejected in Hrun by done; discriminate Hrun).
  destruct (no_messages results) eqn:Hno.
  { rewrite pullLongRunningJob_no_message in Hrun by done. discriminate Hrun. }
  apply no_messages_false in Hno as (first & rest & ->).
  rewrite pullLongRunningJob_message in Hrun. cbn [fst] in Hrun.
  destruct (settles r_modify); [|discriminate Hrun].
  unfold decode_data in Hrun.
  destruct (Buffer.from_base64 (data (message first))) as [b|]; [|discriminate Hrun].
  injection Hrun as <-. exists first, rest, (Buffer.asciiSlice b).
  repeat (split; [reflexivity|]). apply BufferFacts.asciiSlice_is_ascii.
Qed.

Lemma hello_is_first_decoded :
  exists first rest s,
    one_message hello = Replied (Some {| receivedMessages := Some (first :: rest) |}) /\
    ackId hello_decoded = ackId first /\
    attributes (message hello_decoded) = attributes (message first) /\
    messageId (message hello_decoded) = messageId (message first) /\
    data (message hello_decoded) = Buffer.Str s /\
    Forall Buffer.is_ascii s.
Proof.
  apply (returned_message_is_first_decoded "jobs" README_options (one_message hello)
           (Replied tt) fresh_client hello_decoded).
  vm_compute. reflexivity.
Defined.

(** ** What the pull path makes of any published payload *)

Module Utf8Facts.
Import Buffer.
Local Open Scope N_scope.

Ltac every_sextet x Hx :=
  apply N.ltb_lt; revert x Hx; refine (BufferFacts.below_forallb _ 64 _);
  vm_compute; reflexivity.

Lemma continuation_lead x : x < 64 -> N.lor 0x80 x < 256.
Proof. intros Hx. every_sextet x Hx. Qed.

Lemma two_octet_lead x : x < 64 -> N.lor 0xC0 x < 256.
Proof. intros Hx. every_sextet x Hx. Qed.

Lemma three_octet_lead x : x < 16 -> N.lor 0xE0 x < 256.
Proof.
  intros Hx. assert (Hx' : x < 64) by lia. clear Hx. every_sextet x Hx'.
Qed.

Lemma four_octet_lead x : x < 5 -> N.lor 0xF0 x < 256.
Proof.
  intros Hx. assert (Hx' : x < 64) by lia. clear Hx. every_sextet x Hx'.
Qed.

Lemma low_six_bits x : N.land x 0x3F < 64.
Proof. change 0x3F with (N.ones 6). rewrite N.land_ones. by apply N.mod_lt. Qed.

Lemma continuation_octet x : is_octet (N.lor 0x80 (N.land x 0x3F)).
Proof. apply continuation_lead, low_six_bits. Qed.

Lemma shiftr_below x n b : x < b * 2 ^ n -> N.shiftr x n < b.
Proof.
  intros Hx. rewrite N.shiftr_div_pow2.
  apply N.Div0.div_lt_upper_bound. lia.
Qed.

Lemma utf8_of_code_point_octets cp :
  cp < 0x110000 -> Forall is_octet (utf8_of_code_point cp).
Proof.
  intros Hcp. unfold utf8_of_code_point.
  destruct (cp <? 0x80) eqn:H1; [apply N.ltb_lt in H1|apply N.ltb_ge in H1].
  { apply Forall_singleton. unfold is_octet. lia. }
  destruct (cp <? 0x800) eqn:H2; [apply N.ltb_lt in H2|apply N.ltb_ge in H2].
  { repeat first [apply Forall_nil_2 | apply Forall_cons_2];
      [|apply continuation_octet].
    apply two_octet_lead. assert (N.shiftr cp 6 < 32) by (by apply shiftr_below). lia. }
  destruct (cp <? 0x10000) eqn:H3; [apply N.ltb_lt in H3|apply N.ltb_ge in H3].
  { repeat first [apply Forall_nil_2 | apply Forall_cons_2];
      [|apply continuation_octet..].
    apply three_octet_lead. by apply shiftr_below. }
  repeat first [apply Forall_nil_2 | apply Forall_cons_2];
    [|apply continuation_octet..].
  apply four_octet_lead. apply shiftr_below.
  change (5 * 2 ^ 18) with 1310720. lia.
Qed.

Lemma code_point_of_pair_below hi lo :
  is_lead_surrogate hi = true -> is_trail_surrogate lo = true ->
  code_point_of_pair hi lo < 0x110000.
Proof.
  unfold is_lead_surrogate, is_trail_surrogate, code_point_of_pair.
  intros [H1 H2]%andb_true_iff [H3 H4]%andb_true_iff.
  apply N.leb_le in H1, H2, H3, H4. rewrite N.shiftl_mul_pow2.
  change (2 ^ 10) with 1024. lia.
Qed.

Lemma replacement_character_octets : Forall is_octet replacement_character.
Proof. repeat first [apply Forall_nil_2 | apply Forall_cons_2]; reflexivity. Qed.

(** [Buffer.from(string)] yields octets. *)
Lemma utf8Write_octets (n : nat) : forall s,
  (length s <= n)%nat -> Forall (fun c => c < 65536) s -> Forall is_octet (utf8Write s).
Proof.
  induction n as [|n IH]; intros s Hlen Hs.
  { destruct s; [apply Forall_nil_2 | simpl in Hlen; lia]. }
  destruct s as [|c s]; [apply Forall_nil_2|].
  apply Forall_cons in Hs as [Hc Hs]. cbn [utf8Write]. simpl in Hlen.
  destruct (is_lead_surrogate c) eqn:Hlead.
  - destruct s as [|d s]; [apply replacement_character_octets|].
    destruct (is_trail_surrogate d) eqn:Htrail.
    + apply Forall_app. split.
      * by apply utf8_of_code_point_octets, code_point_of_pair_below.
      * apply Forall_cons in Hs as [_ Hs]. apply IH; [simpl in Hlen; lia | exact Hs].
    + apply Forall_app. split; [apply replacement_character_octets|].
      apply IH; [lia | exact Hs].
  - destruct (is_trail_surrogate c).
    + apply Forall_app. split; [apply replacement_character_octets|].
      apply IH; [lia | exact Hs].
    + apply Forall_app. split; [apply utf8_of_code_point_octets; lia|].
      apply IH; [lia | exact Hs].
Qed.
End Utf8Facts.

(** X5: what comes back from the pull path for a published payload, in
    general: a string is returned as the octets of its UTF-8 form, each with
    its high bit cleared and read as one character; a buffer is returned as
    its octets treated the same way; a message without [data] cannot be
    published at all. *)
Theorem pulled_payload_is_masked_utf8 :
  (forall s, Forall is_code_unit s ->
     roundtrip (Buffer.Str s)
     = Some (Buffer.Str (Buffer.asciiSlice (Buffer.utf8Write s)))) /\
  (forall b, Forall Buffer.is_octet b ->
     roundtrip (Buffer.Buf b) = Some (Buffer.Str (Buffer.asciiSlice b))) /\
  roundtrip Buffer.Undefined = None.
Proof.
  split; [|split; [|reflexivity]].
  - intros s Hs. unfold roundtrip, encode_data, decode_data.
    cbn [Buffer.from Buffer.from_base64].
    rewrite BufferFacts.base64_roundtrip; [reflexivity|].
    by apply (Utf8Facts.utf8Write_octets (length s)).
  - intros b Hb. unfold roundtrip, encode_data, decode_data.
    cbn [Buffer.from Buffer.from_base64].
    by rewrite BufferFacts.base64_roundtrip.
Qed.

Lemma euro_sign_comes_back_as_three_characters :
  roundtrip (Buffer.Str [0x20AC%N]) = Some (Buffer.Str [0x62; 0x02; 0x2C]%N).
Proof.
  rewrite (proj1 pulled_payload_is_masked_utf8 [0x20AC%N]); [reflexivity|].
  apply Forall_singleton. reflexivity.
Defined.

(** ** More on acknowledging *)

(** X6: [acknowledgeLongRunningJob] settles as its [acknowledge] request
    does and sends that one request (none without credentials) for exactly
    the handle given; whether it resolves or rejects, the handle has no
    entry of its own in the table afterwards, and the timer the table held
    for it, if it held one, has been cleared once and does not fire again.
    Nothing is claimed of a timer the table does not hold. *)
Theorem acknowledge_always_deregisters
    (subscription h : string) (r : reply unit) (st : state) :
  let res := acknowledgeLongRunningJob subscription h r st in
  fst res = settles r /\
  sent (trace (snd res)) =
    sent (trace st) ++
    (if reaches_wire r then [acknowledge_request st subscription [h]] else []) /\
  longRunningJobTimers (snd res) !! h = None /\
  (forall t, longRunningJobTimers st !! h = Some t ->
     intervals (snd res) !! t = None /\
     cleared (trace (snd res)) = cleared (trace st) ++ [t] /\
     forall r', tick t r' (snd res) = None).
Proof.
  intros res. subst res.
  split; [|split; [|split; [apply acknowledgeLongRunningJob_forgets|]]].
  - destruct (longRunningJobTimers st !! h) as [t|] eqn:Hreg.
    + by rewrite (acknowledgeLongRunningJob_registered _ _ _ _ _ Hreg), acknowledge_run.
    + by rewrite (acknowledgeLongRunningJob_unregistered _ _ _ _ Hreg).
  - destruct (longRunningJobTimers st !! h) as [t|] eqn:Hreg.
    + rewrite (acknowledgeLongRunningJob_registered _ _ _ _ _ Hreg), acknowledge_run.
      cbn [snd trace append_trace set_trace deregistered set_longRunningJobTimers
           set_intervals].
      rewrite !sent_app, <- app_assoc. f_equal. by destruct r.
    + rewrite (acknowledgeLongRunningJob_unregistered _ _ _ _ Hreg).
      cbn [snd trace append_trace set_trace].
      rewrite !sent_app, sent_inherited_deregistration. cbn [app].
      f_equal. by destruct r.
  - intros t Hreg.
    rewrite (acknowledgeLongRunningJob_registered _ _ _ _ _ Hreg), acknowledge_run.
    cbn [snd trace intervals append_trace set_trace deregistered set_longRunningJobTimers
         set_intervals].
    split; [apply lookup_delete_eq|]. split.
    + rewrite !cleared_app.
      assert (Hnone : forall s, cleared (acknowledge_events s subscription [h] r) = [])
        by (intros s; by destruct r).
      by rewrite Hnone, app_nil_r.
    + intros r'. unfold tick.
      cbn [intervals append_trace set_trace deregistered set_longRunningJobTimers
           set_intervals].
      by rewrite lookup_delete_eq.
Qed.

Lemma failed_acknowledge_of_hello_stops_renewals :
  intervals (snd (acknowledgeLongRunningJob "jobs" "A1" (Failed "timeout") job_started))
    !! 1%positive = None.
Proof.
  destruct (acknowledge_always_deregisters "jobs" "A1" (Failed "timeout") job_started)
    as (_ & _ & _ & H).
  destruct (H 1%positive) as (Hdead & _); [vm_compute; reflexivity | exact Hdead].
Defined.

Lemma acknowledged_hello_never_fires :
  tick 1%positive (Replied tt)
    (snd (pullLongRunningJob "jobs" README_options (one_message world) (Replied tt)
            (snd (acknowledgeLongRunningJob "jobs" "A1" (Replied tt) job_started)))) = None.
Proof.
  apply (acknowledged_timer_never_fires "p" ∅
           [PullLongRunningJob "jobs" README_options (one_message hello) (Replied tt)]
           [PullLongRunningJob "jobs" README_options (one_message world) (Replied tt)]
           "jobs" "A1" 1%positive (Replied tt) job_started).
  - reflexivity.
  - vm_compute. reflexivity.
  - vm_compute. reflexivity.
Defined.

Lemma acknowledged_hello_is_not_renewed :
  ~ renews (snd (acknowledgeLongRunningJob "jobs" "A1" (Replied tt) two_jobs_started))
      1%positive "A1".
Proof.
  apply (acknowledge_ends_renewals "p" ∅
           [PullLongRunningJob "jobs" README_options (one_message hello) (Replied tt);
            PullLongRunningJob "jobs" README_options (one_message world) (Replied tt)]
           two_jobs_started "jobs" "A1" (Replied tt)).
  - simpl. split; [intros [t Ht]; vm_compute in Ht; discriminate Ht|].
    split; [intros [t Ht]; vm_compute in Ht; discriminate Ht | exact I].
  - vm_compute. reflexivity.
Defined.

(** ** Jobs do not disturb each other *)

Lemma registered_live_constructor project h : registered_live (constructor project h).
Proof. intros ? ? H. cbn in H. by rewrite lookup_empty in H. Qed.

Lemma renews_same_timers st st' t h : renews st t h -> same_timers st st' -> renews st' t h.
Proof. unfold renews. by intros H (_ & -> & _). Qed.

Lemma registered_live_same_timers st st' :
  registered_live st -> same_timers st st' -> registered_live st'.
Proof.
  intros Hlive Hsame h t Ht. destruct Hsame as (Hreg & Hiv & Hnext).
  rewrite Hreg in Ht. apply Hlive in Ht. unfold renews. by rewrite Hiv.
Qed.

Lemma renews_functional st t h h' : renews st t h -> renews st t h' -> h = h'.
Proof. intros (cb & Hcb & <-) (cb' & Hcb' & <-). congruence. Qed.

Lemma pull_registered_live subscription opts r_pull r_modify st :
  fresh_timers st -> registered_live st ->
  registered_live (snd (pullLongRunningJob subscription opts r_pull r_modify st)).
Proof.
  intros [Hfresh _] Hlive.
  destruct r_pull as [msg|msg|results];
    try (rewrite pullLongRunningJob_pull_rejected by done; exact Hlive).
  destruct (no_messages results) eqn:Hno.
  { rewrite pullLongRunningJob_no_message by done. exact Hlive. }
  apply no_messages_false in Hno as (payload & rest & ->).
  rewrite pullLongRunningJob_message. intros h t. unfold renews. cbn.
  rewrite lookup_insert. destruct (decide (ackId payload = h)) as [<-|Hne].
  - intros [= <-]. exists (job_callback subscription opts payload).
    split; [apply lookup_insert_eq | reflexivity].
  - intros (cb & Hcb & Hh)%Hlive. exists cb. split; [|exact Hh].
    rewrite lookup_insert_ne; [exact Hcb|]. apply Hfresh in Hcb. lia.
Qed.

Lemma acknowledge_registered_live subscription h r st :
  registered_live st ->
  registered_live (snd (acknowledgeLongRunningJob subscription h r st)).
Proof.
  intros Hlive h' t.
  destruct (longRunningJobTimers st !! h) as [t0|] eqn:Hreg.
  - rewrite (acknowledgeLongRunningJob_registered _ _ _ _ _ Hreg), acknowledge_run.
    unfold renews. cbn. intros [Hne Ht]%lookup_delete_Some.
    pose proof (Hlive _ _ Ht) as Hrenews. destruct Hrenews as (cb & Hcb & Hh).
    exists cb. split; [|exact Hh]. rewrite lookup_delete_ne; [exact Hcb|].
    intros ->. apply Hne.
    exact (renews_functional st t h h' (Hlive _ _ Hreg) (Hlive _ _ Ht)).
  - rewrite (acknowledgeLongRunningJob_unregistered _ _ _ _ Hreg).
    apply Hlive.
Qed.

(** The calls of the caller do not end the process. *)
Lemma pullLongRunningJob_exited subscription opts r_pull r_modify st :
  exited (snd (pullLongRunningJob subscription opts r_pull r_modify st)) = exited st.
Proof.
  destruct r_pull as [msg|msg|results];
    try (rewrite pullLongRunningJob_pull_rejected by done; reflexivity).
  destruct (no_messages results) eqn:Hno.
  { rewrite pullLongRunningJob_no_message by done. reflexivity. }
  apply no_messages_false in Hno as (payload & rest & ->).
  rewrite pullLongRunningJob_message. reflexivity.
Qed.

Lemma acknowledgeLongRunningJob_exited subscription h r st :
  exited (snd (acknowledgeLongRunningJob subscription h r st)) = exited st.
Proof.
  destruct (longRunningJobTimers st !! h) as [t0|] eqn:Hreg.
  - rewrite (acknowledgeLongRunningJob_registered _ _ _ _ _ Hreg), acknowledge_run.
    reflexivity.
  - rewrite (acknowledgeLongRunningJob_unregistered _ _ _ _ Hreg). reflexivity.
Qed.

Lemma encode_message_exited m st : exited (snd (encode_message m st)) = exited st.
Proof.
  unfold encode_message, deref, gets, bind at 1 2.
  destruct (heap st !! m) as [o|]; [|done].
  unfold ret at 1. destruct (encode_data (data o)); done.
Qed.

Lemma deref_exited m st : exited (snd (deref m st)) = exited st.
Proof. unfold deref, gets, bind. by destruct (heap st !! m). Qed.

Lemma mapM_exited {A B} (f : A -> M B) (l : list A) :
  (forall a st, exited (snd (f a st)) = exited st) ->
  forall st, exited (snd (mapM f l st)) = exited st.
Proof.
  intros Hf. induction l as [|a l IH]; intros st; [done|].
  cbn [mapM]. unfold bind at 1.
  pose proof (Hf a st) as Ha. destruct (f a st) as [[b|e] st1]; [|exact Ha].
  unfold bind at 1.
  pose proof (IH st1) as Hl. destruct (mapM f l st1) as [[bs|e] st2];
    exact (eq_trans Hl Ha).
Qed.

Lemma publish_exited topic ms r st : exited (snd (publish topic ms r st)) = exited st.
Proof.
  unfold publish, formatTopic, gets, bind at 1 2, ret at 1. unfold bind at 1.
  destruct r as [msg|msg|ids]; [done|..].
  all: change (addAuthentication _ st) with (Resolved tt, append_trace [Authenticate] st).
  all: unfold bind at 1;
    pose proof (mapM_exited encode_message ms encode_message_exited
                  (append_trace [Authenticate] st)) as H1;
    destruct (mapM encode_message ms _) as [[ms'|e] st1]; [|exact H1];
    unfold bind at 1;
    pose proof (mapM_exited deref ms' deref_exited st1) as H2;
    destruct (mapM deref ms' st1) as [[objs|e] st2];
    exact (eq_trans H2 H1).
Qed.

Lemma live_or_exited_constructor project h : live_or_exited (constructor project h).
Proof. apply registered_live_constructor. Qed.

Lemma step_live_or_exited a st st' :
  fresh_timers st -> live_or_exited st -> step a st = Some st' -> live_or_exited st'.
Proof.
  intros Hfresh Hinv Hstep. unfold live_or_exited in *.
  assert (Hrunning : exited st = false)
    by (unfold step in Hstep; by destruct (exited st)).
  rewrite Hrunning in Hinv. apply step_perform in Hstep.
  destruct a as [subscription opts r_pull r_modify|subscription h r|topic ms r|t0 r];
    cbn [perform] in Hstep.
  - injection Hstep as <-. rewrite pullLongRunningJob_exited, Hrunning.
    by apply pull_registered_live.
  - injection Hstep as <-. rewrite acknowledgeLongRunningJob_exited, Hrunning.
    by apply acknowledge_registered_live.
  - injection Hstep as <-. rewrite publish_exited, Hrunning.
    eapply registered_live_same_timers; [exact Hinv|]. apply publish_same_timers.
  - destruct (tick_timers _ _ _ _ Hstep) as (Hreg & _ & [[Hiv ->]|[Hiv ->]]);
      [|exact Hiv].
    rewrite Hrunning. intros h t. unfold renews. rewrite Hreg, Hiv. apply Hinv.
Qed.

Lemma run_live_or_exited acts : forall st st',
  fresh_timers st -> live_or_exited st -> run acts st = Some st' -> live_or_exited st'.
Proof.
  induction acts as [|a acts IH]; intros st st' Hfresh Hlive Hrun.
  - by injection Hrun as <-.
  - cbn [run] in Hrun. destruct (step a st) as [st1|] eqn:Hstep; [|discriminate Hrun].
    eapply IH; [| |exact Hrun]; [by eapply step_fresh_timers | by eapply step_live_or_exited].
Qed.

(** A state with a live timer is one of a running process. *)
Lemma live_or_exited_renews st t h :
  live_or_exited st -> renews st t h -> registered_live st.
Proof.
  unfold live_or_exited. intros Hinv (cb & Hcb & _).
  destruct (exited st); [|exact Hinv]. by rewrite Hinv, lookup_empty in Hcb.
Qed.

(** X7: in every execution of a client, acknowledging one job does not
    touch another: a timer that renews a different handle is still alive
    and that handle keeps its entry; and starting a job never stops a timer
    that is alive. *)
Theorem jobs_are_independent
    (project : string) (h0 : gmap loc pubsub_message) (acts : list action) (st : state) :
  run acts (constructor project h0) = Some st ->
  (forall subscription h r t' h',
     h' <> h -> renews st t' h' ->
     renews (snd (acknowledgeLongRunningJob subscription h r st)) t' h' /\
     longRunningJobTimers (snd (acknowledgeLongRunningJob subscription h r st)) !! h'
     = longRunningJobTimers st !! h') /\
  (forall subscription opts r_pull r_modify t' h',
     renews st t' h' ->
     renews (snd (pullLongRunningJob subscription opts r_pull r_modify st)) t' h').
Proof.
  intros Hrun.
  assert (Hfresh : fresh_timers st)
    by (eapply run_fresh_timers; [apply fresh_timers_constructor | exact Hrun]).
  assert (Hinv : live_or_exited st).
  { eapply run_live_or_exited; [| |exact Hrun];
      [apply fresh_timers_constructor | apply live_or_exited_constructor]. }
  split.
  - intros subscription h r t' h' Hne Hrenews.
    pose proof (live_or_exited_renews _ _ _ Hinv Hrenews) as Hlive.
    destruct (longRunningJobTimers st !! h) as [t0|] eqn:Hreg.
    + rewrite (acknowledgeLongRunningJob_registered _ _ _ _ _ Hreg), acknowledge_run.
      unfold renews. cbn. split; [|by rewrite lookup_delete_ne].
      destruct Hrenews as (cb & Hcb & Hh). exists cb. split; [|exact Hh].
      rewrite lookup_delete_ne; [exact Hcb|]. intros ->. apply Hne.
      apply (renews_functional st t' h' h); [by exists cb | by apply Hlive].
    + rewrite (acknowledgeLongRunningJob_unregistered _ _ _ _ Hreg).
      by split.
  - intros subscription opts r_pull r_modify t' h' Hrenews.
    destruct (pull_supply subscription opts r_pull r_modify st)
      as [Hsame|(h1 & cb1 & _ & Hiv & _)]; [by eapply renews_same_timers|].
    destruct Hrenews as (cb & Hcb & Hh). exists cb. split; [|exact Hh].
    rewrite Hiv, lookup_insert_ne; [exact Hcb|]. apply (proj1 Hfresh) in Hcb. lia.
Qed.

Lemma acknowledging_hello_spares_world :
  renews (snd (acknowledgeLongRunningJob "jobs" "A1" (Replied tt) two_jobs_started))
    2%positive "B2".
Proof.
  destruct (jobs_are_independent "p" ∅
              [PullLongRunningJob "jobs" README_options (one_message hello) (Replied tt);
               PullLongRunningJob "jobs" README_options (one_message world) (Replied tt)]
              two_jobs_started) as [Hack _]; [vm_compute; reflexivity|].
  apply (Hack "jobs" "A1" (Replied tt) 2%positive "B2").
  - discriminate.
  - exists (job_callback "jobs" README_options world). split; vm_compute; reflexivity.
Defined.

(** X8: a complete cycle leaves nothing behind.  In every execution,
    pulling a message whose handle is not in the table and then
    acknowledging that handle restores the table and the set of live timers
    to what they were before the pull, whatever the two requests answer. *)
Theorem pull_then_acknowledge_restores_table
    (project : string) (h0 : gmap loc pubsub_message) (acts : list action) (st : state)
    (subscription : string) (opts : job_options) (payload : received_message)
    (rest : list received_message) (r_modify r : reply unit) :
  run acts (constructor project h0) = Some st ->
  longRunningJobTimers st !! ackId payload = None ->
  let st1 := snd (pullLongRunningJob subscription opts
                    (Replied (Some {| receivedMessages := Some (payload :: rest) |}))
                    r_modify st) in
  let st2 := snd (acknowledgeLongRunningJob subscription (ackId payload) r st1) in
  longRunningJobTimers st2 = longRunningJobTimers st /\
  intervals st2 = intervals st.
Proof.
  intros Hrun Hnew st1 st2.
  assert (Hfresh : fresh_timers st)
    by (eapply run_fresh_timers; [apply fresh_timers_constructor | exact Hrun]).
  assert (Hnext : intervals st !! next_timer st = None).
  { destruct (intervals st !! next_timer st) as [cb|] eqn:Hcb; [|done].
    apply (proj1 Hfresh) in Hcb. lia. }
  assert (Hreg : longRunningJobTimers st1 !! ackId payload = Some (next_timer st)).
  { subst st1. rewrite pullLongRunningJob_message. cbn. apply lookup_insert_eq. }
  subst st2. rewrite (acknowledgeLongRunningJob_registered _ _ _ _ _ Hreg), acknowledge_run.
  subst st1. rewrite pullLongRunningJob_message. cbn.
  split; by apply delete_insert_id.
Qed.

Lemma hello_cycle_restores_fresh_client :
  longRunningJobTimers
    (snd (acknowledgeLongRunningJob "jobs" (ackId hello) (Replied tt) job_started))
  = longRunningJobTimers fresh_client /\
  intervals (snd (acknowledgeLongRunningJob "jobs" (ackId hello) (Replied tt) job_started))
  = intervals fresh_client.
Proof.
  apply (pull_then_acknowledge_restores_table "p" ∅ [] fresh_client "jobs" README_options
           hello [] (Replied tt) (Replied tt)); reflexivity.
Defined.

(** X9: every renewal repeats the first extension.  After
    [pullLongRunningJob] has returned a message, a tick of the timer entered
    for it sends, when credentials are found, the very request the call sent
    synchronously before returning: same subscription, same single handle,
    same [extendBy] (10000 ms when the option was left out). *)
Theorem renewal_repeats_first_extension
    (subscription : string) (opts : job_options)
    (r_pull : reply (option pull_response)) (r_modify r : reply unit)
    (st st' : state) (m : received_message) :
  pullLongRunningJob subscription opts r_pull r_modify st = (Resolved (Some m), st') ->
  exists t st'',
    longRunningJobTimers st' !! ackId m = Some t /\
    last (sent (trace st'))
    = Some (modifyAckDeadline_request st subscription [ackId m]
              (default 10000%Z (extendBy opts))) /\
    tick t r st' = Some st'' /\
    sent (trace st'') =
      sent (trace st') ++
      (if reaches_wire r
       then [modifyAckDeadline_request st subscription [ackId m]
               (default 10000%Z (extendBy opts))]
       else []).
Proof.
  intros Hrun.
  destruct r_pull as [msg|msg|results];
    try (rewrite pullLongRunningJob_pull_rejected in Hrun by done; discriminate Hrun).
  destruct (no_messages results) eqn:Hno.
  { rewrite pullLongRunningJob_no_message in Hrun by done. discriminate Hrun. }
  apply no_messages_false in Hno as (payload & rest & ->).
  rewrite pullLongRunningJob_message in Hrun.
  destruct r_modify as [msg|msg|[]]; cbn [settles] in Hrun; try discriminate Hrun.
  destruct (decode_data (data (message payload))) as [d|]; [|discriminate Hrun].
  injection Hrun as <- <-. cbn [ackId with_message].
  eexists (next_timer st), _.
  split; [apply lookup_insert_eq|]. split.
  { cbn [trace]. rewrite !sent_app. cbn. by rewrite last_app. }
  split.
  { apply (tick_run _ (job_callback subscription opts payload)). apply lookup_insert_eq. }
  rewrite trace_left_unhandled.
  cbn [trace append_trace set_trace].
  change (Log ?l :: ?evs) with ([Log l] ++ evs). rewrite !sent_app.
  cbn [sent omap app]. f_equal. by destruct r.
Qed.

Lemma renewal_of_hello_repeats_first_extension :
  exists t st'',
    longRunningJobTimers job_started !! ackId hello_decoded = Some t /\
    last (sent (trace job_started))
    = Some (modifyAckDeadline_request fresh_client "jobs" [ackId hello_decoded]
              (default 10000%Z (extendBy README_options))) /\
    tick t (Replied tt) job_started = Some st'' /\
    sent (trace st'') =
      sent (trace job_started) ++
      (if reaches_wire (Replied tt)
       then [modifyAckDeadline_request fresh_client "jobs" [ackId hello_decoded]
               (default 10000%Z (extendBy README_options))]
       else []).
Proof.
  apply (renewal_repeats_first_extension "jobs" README_options (one_message hello)
           (Replied tt) (Replied tt) fresh_client job_started hello_decoded).
  vm_compute. reflexivity.
Defined.

(** ** More on publishing *)

Lemma has_payload_alter_inv h m m' :
  has_payload (alter encoded m h) m' -> has_payload h m'.
Proof.
  intros (o' & Ho' & Hd). rewrite lookup_alter in Ho'.
  destruct (decide (m = m')) as [->|]; [|by exists o'].
  destruct (h !! m') as [o|] eqn:Ho; [|discriminate Ho']. injection Ho' as <-.
  exists o. split; [done|]. intros Hundef. apply Hd.
  unfold encoded, encode_data. by rewrite Hundef.
Qed.

Lemma encode_message_without_payload m st :
  ~ has_payload (heap st) m -> encode_message m st = (Rejected TypeError, st).
Proof.
  intros Hno. unfold encode_message, deref, gets, bind at 1 2.
  destruct (heap st !! m) as [o|] eqn:Ho; [|reflexivity].
  unfold ret at 1. unfold encode_data.
  destruct (data o) eqn:Hd; [reflexivity|..];
    destruct Hno; exists o; (split; [done | congruence]).
Qed.

Lemma mapM_encode_message_stops pre m post : forall st,
  Forall (has_payload (heap st)) pre ->
  ~ has_payload (heap st) m ->
  mapM encode_message (pre ++ m :: post) st
  = (Rejected TypeError, set_heap (encode_all pre) st).
Proof.
  induction pre as [|a pre IH]; intros st Hpre Hm.
  - cbn [app mapM]. unfold bind at 1. rewrite encode_message_without_payload by exact Hm.
    by destruct st.
  - apply Forall_cons in Hpre as [Ha Hpre].
    cbn [app mapM]. unfold bind at 1. rewrite (encode_message_run _ _ Ha).
    unfold bind at 1. rewrite IH.
    + reflexivity.
    + eapply Forall_impl; [exact Hpre|]. intros m'. apply has_payload_alter.
    + intros H. apply Hm. by apply has_payload_alter_inv in H.
Qed.

(** X10: [publish] gives up at the first message that has no [data] (or is
    no object): it rejects with a [TypeError] and sends nothing, but the
    messages before that one have already been overwritten with their
    base64 text in the caller's objects; the others are untouched. *)
Theorem publish_stops_at_message_without_data
    (topic : string) (pre : list loc) (m : loc) (post : list loc)
    (r : reply (list string)) (st : state) :
  reaches_wire r = true ->
  Forall (has_payload (heap st)) pre ->
  ~ has_payload (heap st) m ->
  exists st',
    publish topic (pre ++ m :: post) r st = (Rejected TypeError, st') /\
    sent (trace st') = sent (trace st) /\
    (forall x o, heap st !! x = Some o ->
       heap st' !! x = Some (Nat.iter (count_occ Pos.eq_dec pre x) encoded o)) /\
    (forall x, x ∉ pre -> heap st' !! x = heap st !! x).
Proof.
  intros Hr Hpre Hm.
  exists (set_heap (encode_all pre) (append_trace [Authenticate] st)).
  split; [|split; [|split]].
  - unfold publish, formatTopic, gets, bind at 1 2, ret at 1. unfold bind at 1.
    assert (addAuthentication r st = (Resolved tt, append_trace [Authenticate] st)) as ->
      by (destruct r; [discriminate Hr|reflexivity..]).
    unfold bind at 1. by rewrite mapM_encode_message_stops.
  - cbn. by rewrite sent_app, app_nil_r.
  - intros x o Ho. cbn. by rewrite lookup_encode_all, Ho.
  - intros x Hx. cbn. rewrite lookup_encode_all.
    rewrite (proj1 (count_occ_not_In Pos.eq_dec pre x)).
    + by destruct (heap st !! x).
    + by rewrite <- list_elem_of_In.
Qed.

Lemma publish_with_gap_encodes_only_the_first :
  exists st',
    publish "greetings" ([1%positive] ++ 2%positive :: [3%positive]) (Replied ["7"])
      (constructor "p" caller_heap_with_gap) = (Rejected TypeError, st') /\
    (data <$> heap st' !! 1%positive) = Some (Buffer.Str (Buffer.js "aGVsbG8=")) /\
    (data <$> heap st' !! 3%positive) = Some (Buffer.Str (Buffer.js "world")).
Proof.
  destruct (publish_stops_at_message_without_data "greetings" [1%positive] 2%positive
              [3%positive] (Replied ["7"]) (constructor "p" caller_heap_with_gap))
    as (st' & Hrun & _ & Hheap & Hrest).
  { reflexivity. }
  { apply Forall_singleton. eexists. split; [vm_compute; reflexivity | discriminate]. }
  { intros (o & Ho & Hd). vm_compute in Ho. injection Ho as <-. by apply Hd. }
  exists st'. split; [exact Hrun|]. split.
  - erewrite Hheap by (vm_compute; reflexivity). vm_compute. reflexivity.
  - rewrite Hrest; [vm_compute; reflexivity|].
    intros Hin. apply list_elem_of_In in Hin. simpl in Hin. destruct Hin as [Hin|[]].
    discriminate Hin.
Defined.

Lemma has_payload_encode_all ms : forall h m,
  has_payload h m -> has_payload (encode_all ms h) m.
Proof.
  induction ms as [|a ms IH]; intros h m Hm; [exact Hm|].
  unfold encode_all. cbn [foldl]. apply IH. by apply has_payload_alter.
Qed.

(** X11: [publish] is not idempotent on the caller's objects.  Publishing
    the same array a second time encodes every payload once more: an object
    listed once then holds, and the second request carries, the base64 text
    of the base64 text of the original payload. *)
Theorem publishing_again_encodes_again
    (topic : string) (messages : list loc) (r1 r2 : reply (list string)) (st : state) :
  reaches_wire r1 = true ->
  reaches_wire r2 = true ->
  Forall (has_payload (heap st)) messages ->
  let st1 := snd (publish topic messages r1 st) in
  let st2 := snd (publish topic messages r2 st1) in
  (forall m o, heap st !! m = Some o ->
     heap st2 !! m = Some (Nat.iter (2 * count_occ Pos.eq_dec messages m) encoded o)) /\
  (forall m o, heap st !! m = Some o -> count_occ Pos.eq_dec messages m = 1 ->
     exists d1 d2,
       encode_data (data o) = Some d1 /\ encode_data d1 = Some d2 /\
       heap st2 !! m = Some (with_data o d2)) /\
  exists carried,
    last (sent (trace st2)) = Some (publish_request st topic carried) /\
    Forall2 (fun m o => heap st2 !! m = Some o) messages carried.
Proof.
  intros Hr1 Hr2 Hms st1 st2.
  destruct (allocated_objects (encode_all messages (heap st)) messages) as [objs1 Hobjs1].
  { eapply Forall_impl; [exact Hms|]. intros m (o & Ho & _).
    rewrite lookup_encode_all, Ho. by eexists. }
  assert (Hst1 : st1 = append_trace [Authenticate; Send (publish_request st topic objs1)]
                         (set_heap (encode_all messages) st)).
  { subst st1. by rewrite (publish_run topic messages objs1 r1 st). }
  assert (Hms1 : Forall (has_payload (heap st1)) messages).
  { rewrite Hst1. cbn. eapply Forall_impl; [exact Hms|].
    intros m. apply has_payload_encode_all. }
  destruct (allocated_objects (encode_all messages (heap st1)) messages) as [objs2 Hobjs2].
  { eapply Forall_impl; [exact Hms1|]. intros m (o & Ho & _).
    rewrite lookup_encode_all, Ho. by eexists. }
  assert (Hst2 : st2 = append_trace [Authenticate; Send (publish_request st1 topic objs2)]
                         (set_heap (encode_all messages) st1)).
  { subst st2. by rewrite (publish_run topic messages objs2 r2 st1). }
  assert (Hlook : forall m o, heap st !! m = Some o ->
    heap st2 !! m = Some (Nat.iter (2 * count_occ Pos.eq_dec messages m) encoded o)).
  { intros m o Ho. rewrite Hst2, Hst1. cbn [heap append_trace set_trace set_heap].
    rewrite !lookup_encode_all, Ho. cbn [fmap option_fmap option_map]. f_equal.
    replace (2 * count_occ Pos.eq_dec messages m)%nat
      with (count_occ Pos.eq_dec messages m + count_occ Pos.eq_dec messages m)%nat by lia.
    by rewrite Nat.iter_add. }
  split; [exact Hlook|]. split.
  - intros m o Ho Hone. rewrite (Hlook _ _ Ho), Hone. cbn [Nat.mul Nat.add Nat.iter nat_rect].
    assert (has_payload (heap st) m) as (o' & Ho' & Hd).
    { rewrite Forall_forall in Hms. apply Hms.
      apply list_elem_of_In, (count_occ_In Pos.eq_dec). lia. }
    assert (o' = o) as -> by congruence.
    unfold encoded, encode_data. destruct (data o) as [|s|b]; [done|..]; cbn; eauto.
  - exists objs2. split.
    + rewrite Hst2. cbn. rewrite sent_app. cbn. rewrite last_snoc.
      by rewrite Hst1.
    + rewrite Hst2. exact Hobjs2.
Qed.

Lemma publishing_hello_twice :
  exists d2,
    (data <$> heap (snd (publish "greetings" [1%positive] (Replied ["8"])
                           (snd (publish "greetings" [1%positive] (Replied ["7"])
                                   (constructor "p" caller_heap)))))
              !! 1%positive) = Some d2 /\
    d2 = Buffer.Str (Buffer.js "YUdWc2JHOD0=").
Proof.
  destruct (publishing_again_encodes_again "greetings" [1%positive]
              (Replied ["7"]) (Replied ["8"]) (constructor "p" caller_heap))
    as (Hheap & _ & _).
  { reflexivity. }
  { reflexivity. }
  { apply Forall_singleton. eexists. split; [vm_compute; reflexivity | discriminate]. }
  eexists. split.
  - erewrite Hheap by (vm_compute; reflexivity). vm_compute. reflexivity.
  - reflexivity.
Defined.

(** ** Where the requests go *)

Lemma append_assoc (s1 s2 s3 : string) : (s1 +:+ s2) +:+ s3 = s1 +:+ (s2 +:+ s3).
Proof.
  induction s1 as [|c s1 IH]; [reflexivity|].
  change (String c ((s1 +:+ s2) +:+ s3) = String c (s1 +:+ (s2 +:+ s3))).
  by rewrite IH.
Qed.

Lemma within_subscription st subscription op b :
  within_project (project st)
    {| uri := subscription_uri st subscription op; body_of := b |}.
Proof.
  exists ("subscriptions/" +:+ subscription +:+ op).
  unfold subscription_uri. cbn [uri]. rewrite !append_assoc. reflexivity.
Qed.

Lemma within_topic st topic op b :
  within_project (project st) {| uri := topic_uri st topic op; body_of := b |}.
Proof.
  exists ("topics/" +:+ topic +:+ op).
  unfold topic_uri. cbn [uri]. rewrite !append_assoc. reflexivity.
Qed.

Lemma encode_message_same_project_and_trace m st :
  same_project_and_trace st (snd (encode_message m st)).
Proof.
  unfold encode_message, deref, gets, bind at 1 2.
  destruct (heap st !! m) as [o|]; [|done].
  unfold ret at 1. destruct (encode_data (data o)); done.
Qed.

Lemma deref_same_project_and_trace m st :
  same_project_and_trace st (snd (deref m st)).
Proof. unfold deref, gets, bind. by destruct (heap st !! m). Qed.

Lemma same_project_and_trace_trans st1 st2 st3 :
  same_project_and_trace st1 st2 -> same_project_and_trace st2 st3 ->
  same_project_and_trace st1 st3.
Proof. unfold same_project_and_trace. intros [-> ->] [-> ->]. done. Qed.

Lemma mapM_same_project_and_trace {A B} (f : A -> M B) (l : list A) :
  (forall a st, same_project_and_trace st (snd (f a st))) ->
  forall st, same_project_and_trace st (snd (mapM f l st)).
Proof.
  intros Hf. induction l as [|a l IH]; intros st; [done|].
  cbn [mapM]. unfold bind at 1.
  pose proof (Hf a st) as Ha. destruct (f a st) as [[b|e] st1]; [|exact Ha].
  unfold bind at 1.
  pose proof (IH st1) as Hl. destruct (mapM f l st1) as [[bs|e] st2];
    exact (same_project_and_trace_trans _ _ _ Ha Hl).
Qed.

(** What [publish] adds to the trace once the credentials are found,
    however it ends. *)
Lemma publish_body_trace (address : string) (ms : list loc) (r : reply (list string))
    (st : state) :
  reaches_wire r = true ->
  let res :=
    (messages <- mapM encode_message ms;;
     carried <- mapM deref messages;;
     request {| uri := address; body_of := PublishBody carried |} r) st in
  project (snd res) = project st /\
  (trace (snd res) = trace st \/
   exists objs, trace (snd res)
                = trace st ++ [Send {| uri := address; body_of := PublishBody objs |}]).
Proof.
  intros Hr res. subst res. unfold bind.
  pose proof (mapM_same_project_and_trace encode_message ms
                encode_message_same_project_and_trace st) as H1.
  destruct (mapM encode_message ms st) as [[ms'|e] st1]; destruct H1 as [H1 H1'];
    cbn [snd] in H1, H1'; lazy beta iota; cbn [snd];
    [|split; [exact H1 | left; exact H1']].
  pose proof (mapM_same_project_and_trace deref ms' deref_same_project_and_trace st1) as H2.
  destruct (mapM deref ms' st1) as [[objs|e] st2]; destruct H2 as [H2 H2'];
    cbn [snd] in H2, H2'; lazy beta iota; cbn [snd];
    [|split; [congruence | left; congruence]].
  destruct r as [msg|msg|ids]; [discriminate Hr|..].
  all: split; [cbn; congruence|]; right; exists objs; cbn; congruence.
Qed.

Lemma publish_trace topic ms r st :
  project (snd (publish topic ms r st)) = project st /\
  exists reqs,
    sent (trace (snd (publish topic ms r st))) = sent (trace st) ++ reqs /\
    Forall (within_project (project st)) reqs.
Proof.
  destruct (reaches_wire r) eqn:Hr.
  - assert (Hpub : publish topic ms r st =
      (messages <- mapM encode_message ms;;
       carried <- mapM deref messages;;
       request {| uri := topic_uri st topic ":publish"; body_of := PublishBody carried |} r)
        (append_trace [Authenticate] st))
      by (destruct r; [discriminate Hr|reflexivity..]).
    rewrite Hpub.
    destruct (publish_body_trace (topic_uri st topic ":publish") ms r
                (append_trace [Authenticate] st) Hr) as [Hp [Htr|[objs Htr]]].
    + split; [exact Hp|]. exists []. rewrite Htr. cbn.
      split; [by rewrite sent_app | apply Forall_nil_2].
    + split; [exact Hp|].
      exists [{| uri := topic_uri st topic ":publish"; body_of := PublishBody objs |}].
      split; [|apply Forall_singleton, within_topic].
      rewrite Htr. cbn. rewrite !sent_app, <- app_assoc. reflexivity.
  - destruct r as [msg|msg|ids]; try discriminate Hr.
    split; [done|]. exists []. cbn.
    split; [by rewrite sent_app | apply Forall_nil_2].
Qed.

Lemma step_sent a st st' :
  step a st = Some st' ->
  project st' = project st /\
  exists reqs,
    sent (trace st') = sent (trace st) ++ reqs /\
    Forall (within_project (project st)) reqs.
Proof.
  intros Hstep.
  destruct a as [subscription opts r_pull r_modify|subscription h r|topic ms r|t0 r];
    apply step_perform in Hstep; cbn [perform] in Hstep.
  - injection Hstep as <-.
    destruct r_pull as [msg|msg|results].
    + rewrite pullLongRunningJob_pull_rejected by done. split; [done|]. exists [].
      cbn. split; [by rewrite sent_app | apply Forall_nil_2].
    + rewrite pullLongRunningJob_pull_rejected by done. split; [done|].
      exists [pull_request st subscription job_pull_options].
      cbn. rewrite sent_app. split; [done|]. apply Forall_singleton, within_subscription.
    + destruct (no_messages results) eqn:Hno.
      * rewrite pullLongRunningJob_no_message by done. split; [done|].
        exists [pull_request st subscription job_pull_options].
        cbn. rewrite sent_app. split; [done|]. apply Forall_singleton, within_subscription.
      * apply no_messages_false in Hno as (payload & rest & ->).
        rewrite pullLongRunningJob_message. split; [done|].
        exists (pull_request st subscription job_pull_options ::
                sent (modifyAckDeadline_events st subscription [ackId payload]
                        (job_extendBy opts) r_modify)).
        cbn [snd trace]. rewrite !sent_app. split; [done|].
        apply Forall_cons_2; [apply within_subscription|].
        destruct r_modify; cbn;
          [apply Forall_nil_2 | apply Forall_singleton, within_subscription..].
  - injection Hstep as <-.
    destruct (longRunningJobTimers st !! h) as [t|] eqn:Hreg.
    + rewrite (acknowledgeLongRunningJob_registered _ _ _ _ _ Hreg), acknowledge_run.
      split; [done|].
      exists (if reaches_wire r then [acknowledge_request st subscription [h]] else []).
      split.
      * cbn [snd trace append_trace set_trace deregistered set_longRunningJobTimers
             set_intervals].
        rewrite !sent_app, <- app_assoc. f_equal. by destruct r.
      * destruct r; cbn; [apply Forall_nil_2 | apply Forall_singleton, within_subscription..].
    + rewrite (acknowledgeLongRunningJob_unregistered _ _ _ _ Hreg).
      split; [done|].
      exists (if reaches_wire r then [acknowledge_request st subscription [h]] else []).
      split.
      * cbn [snd trace append_trace set_trace].
        rewrite !sent_app, sent_inherited_deregistration. cbn [app].
        f_equal. by destruct r.
      * destruct r; cbn; [apply Forall_nil_2 | apply Forall_singleton, within_subscription..].
  - injection Hstep as <-. apply publish_trace.
  - destruct (intervals st !! t0) as [cb|] eqn:Hcb.
    + rewrite (tick_run _ _ _ _ Hcb) in Hstep. injection Hstep as <-.
      rewrite trace_left_unhandled, project_left_unhandled. split; [done|].
      exists (if reaches_wire r
              then [modifyAckDeadline_request st (cb_subscription cb) [cb_ackId cb]
                      (cb_extendBy cb)]
              else []).
      split.
      * cbn [trace append_trace set_trace].
        change (Log ?l :: ?evs) with ([Log l] ++ evs). rewrite !sent_app.
        cbn [sent omap app]. f_equal. by destruct r.
      * destruct r; cbn; [apply Forall_nil_2 | apply Forall_singleton, within_subscription..].
    + unfold tick in Hstep. by rewrite Hcb in Hstep.
Qed.

(** X12: every request a client ever sends, from the calls of its caller
    and from its timers alike, is addressed to the Pub/Sub endpoint under
    the project the client was built with; the client never changes its
    project. *)
Theorem requests_stay_within_project
    (p : string) (h0 : gmap loc pubsub_message) (acts : list action) (st : state) :
  run acts (constructor p h0) = Some st ->
  project st = p /\ Forall (within_project p) (sent (trace st)).
Proof.
  assert (Hgen : forall acts st0 st,
    run acts st0 = Some st ->
    Forall (within_project (project st0)) (sent (trace st0)) ->
    project st = project st0 /\ Forall (within_project (project st0)) (sent (trace st))).
  { clear. induction acts as [|a acts IH]; intros st0 st Hrun Hsent.
    - injection Hrun as <-. by split.
    - cbn [run] in Hrun. destruct (step a st0) as [st1|] eqn:Hstep; [|discriminate Hrun].
      destruct (step_sent _ _ _ Hstep) as (Hp & reqs & Hreqs & Hwithin).
      destruct (IH st1 st Hrun) as [Hp' Hall].
      + rewrite Hp, Hreqs. apply Forall_app. by split.
      + rewrite Hp in Hp', Hall. by split. }
  intros Hrun. apply (Hgen _ _ _ Hrun). apply Forall_nil_2.
Qed.

Lemma requests_of_two_jobs_stay_within_project :
  project two_jobs_started = "p" /\ Forall (within_project "p") (sent (trace two_jobs_started)).
Proof.
  apply (requests_stay_within_project "p" ∅
           [PullLongRunningJob "jobs" README_options (one_message hello) (Replied tt);
            PullLongRunningJob "jobs" README_options (one_message world) (Replied tt)]).
  vm_compute. reflexivity.
Defined.

(** ** No leak without a duplicate delivery *)

(** X15: in every execution in which no pull delivers a handle that is in
    the table at that moment, no timer is ever leaked: every live timer is
    the table's entry of the handle it renews, so each handle has at most
    one live timer and [acknowledgeLongRunningJob] can always stop it. *)
Theorem no_leak_without_duplicate_delivery
    (p : string) (h0 : gmap loc pubsub_message) (acts : list action) (st : state) :
  run acts (constructor p h0) = Some st ->
  delivers_only_new acts (constructor p h0) ->
  (forall t, ~ leaked st t) /\
  (forall t h, renews st t h -> longRunningJobTimers st !! h = Some t) /\
  (forall t t' h, renews st t h -> renews st t' h -> t = t').
Proof.
  intros Hrun Hnew.
  assert (Htracked : tracked st)
    by (eapply run_tracked; [apply tracked_constructor | exact Hnew | exact Hrun]).
  assert (Hentry : forall t h, renews st t h -> longRunningJobTimers st !! h = Some t).
  { intros t h (cb & Hcb & <-). by apply Htracked. }
  split; [|split; [exact Hentry|]].
  - intros t [[cb Hcb] Hnone]. apply (Hnone (cb_ackId cb)). by apply Htracked.
  - intros t t' h Ht Ht'. apply Hentry in Ht, Ht'. congruence.
Qed.

Lemma two_jobs_leak_nothing :
  ~ leaked two_jobs_started 1%positive /\ ~ leaked two_jobs_started 2%positive.
Proof.
  destruct (no_leak_without_duplicate_delivery "p" ∅
              [PullLongRunningJob "jobs" README_options (one_message hello) (Replied tt);
               PullLongRunningJob "jobs" README_options (one_message world) (Replied tt)]
              two_jobs_started) as (Hnone & _ & _).
  - vm_compute. reflexivity.
  - simpl. split; [intros [t Ht]; vm_compute in Ht; discriminate Ht|].
    split; [intros [t Ht]; vm_compute in Ht; discriminate Ht | exact I].
  - split; apply Hnone.
Defined.
